(** * Twitch live-chat relay: a shallow embedding of [twitch_live.py]

    The development follows [src/open_llm_vtuber/live/twitch_live.py]
    (class [TwitchLivePlatform]).  Python strings are modelled as
    [string]; the character classes used by [str.strip], [str.lower] and
    the regular expression class [\w] are the ones Python uses on code
    points below 128 (other characters are neither whitespace, nor
    letters, nor word characters in this model). *)

From Stdlib Require Import Ascii.
From Stdlib Require String.
From Stdlib Require Import DecimalString.
From stdpp Require Import base strings list gmap.

(** ** Python string primitives *)

Module Py.

(** The double quote and the control characters that appear in the source. *)
Definition dquote : ascii := "034"%char.
Definition CR : ascii := "013"%char.
Definition LF : ascii := "010"%char.
Definition CRLF : string := String CR (String LF EmptyString).

Definition is_empty (s : string) : bool :=
  match s with EmptyString => true | String _ _ => false end.

(** Truth value of a [str]: non-empty. *)
Definition truthy (s : string) : bool := negb (is_empty s).

(** [str.isspace] on one character: TAB..CR, FS..US and the space. *)
Definition is_space (c : ascii) : bool :=
  let n := nat_of_ascii c in
  ((9 <=? n) && (n <=? 13)) || ((28 <=? n) && (n <=? 32)).

Definition is_upper (c : ascii) : bool :=
  let n := nat_of_ascii c in (65 <=? n) && (n <=? 90).

Definition is_lower (c : ascii) : bool :=
  let n := nat_of_ascii c in (97 <=? n) && (n <=? 122).

Definition is_digit (c : ascii) : bool :=
  let n := nat_of_ascii c in (48 <=? n) && (n <=? 57).

(** The class [\w]: letters, digits and the underscore. *)
Definition is_word (c : ascii) : bool :=
  is_upper c || is_lower c || is_digit c || Ascii.eqb c "_"%char.

Definition lower_char (c : ascii) : ascii :=
  if is_upper c then ascii_of_nat (nat_of_ascii c + 32) else c.

(** [s.lower()] *)
Fixpoint lower (s : string) : string :=
  match s with
  | EmptyString => EmptyString
  | String c s' => String (lower_char c) (lower s')
  end.

(** [s.lstrip(chars)] for a one-character [chars]. *)
Fixpoint lstrip_char (x : ascii) (s : string) : string :=
  match s with
  | String c s' => if Ascii.eqb c x then lstrip_char x s' else s
  | EmptyString => EmptyString
  end.

(** [s.lstrip()] *)
Fixpoint lstrip (s : string) : string :=
  match s with
  | String c s' => if is_space c then lstrip s' else s
  | EmptyString => EmptyString
  end.

(** [s.rstrip()] *)
Fixpoint rstrip (s : string) : string :=
  match s with
  | EmptyString => EmptyString
  | String c s' =>
      let r := rstrip s' in
      if is_space c && is_empty r then EmptyString else String c r
  end.

(** [s.strip()] *)
Definition strip (s : string) : string := rstrip (lstrip s).

(** [s.startswith(p)] *)
Fixpoint startswith (p s : string) : bool :=
  match p, s with
  | EmptyString, _ => true
  | String a p', String b s' => Ascii.eqb a b && startswith p' s'
  | String _ _, EmptyString => false
  end.

(** [sub in s] *)
Fixpoint contains (sub s : string) : bool :=
  startswith sub s ||
  match s with
  | EmptyString => false
  | String _ s' => contains sub s'
  end.

Fixpoint drop (n : nat) (s : string) : string :=
  match n, s with
  | S n', String _ s' => drop n' s'
  | _, _ => s
  end.

Fixpoint take (n : nat) (s : string) : string :=
  match n, s with
  | S n', String c s' => String c (take n' s')
  | _, _ => EmptyString
  end.

(** The leftmost occurrence of a non-empty [sep] in [s]: the text before
    it and the text after it ([str.partition] without the separator). *)
Fixpoint partition (sep s : string) : option (string * string) :=
  match s with
  | EmptyString => None
  | String c s' =>
      if startswith sep s then Some (EmptyString, drop (String.length sep) s)
      else match partition sep s' with
           | Some (a, b) => Some (String c a, b)
           | None => None
           end
  end.

(** [s.split(sep)] for a non-empty [sep]; every cut consumes at least one
    character, so [String.length s] rounds are enough. *)
Fixpoint split_rounds (n : nat) (sep s : string) : list string :=
  match n with
  | O => [s]
  | S n' =>
      match partition sep s with
      | None => [s]
      | Some (a, b) => a :: split_rounds n' sep b
      end
  end.

Definition split (sep s : string) : list string :=
  split_rounds (String.length s) sep s.

(** [s.replace(old, new)] for a non-empty [old]: every non-overlapping
    occurrence, leftmost first. *)
Fixpoint replace_rounds (n : nat) (old new s : string) : string :=
  match n with
  | O => s
  | S n' =>
      match partition old s with
      | None => s
      | Some (a, b) => a +:+ new +:+ replace_rounds n' old new b
      end
  end.

Definition replace (old new s : string) : string :=
  replace_rounds (String.length s) old new s.

(** [str(n)] for a natural number. *)
Definition str_of_nat (n : nat) : string :=
  NilEmpty.string_of_uint (Nat.to_uint n).

End Py.

(** ** The fragment of [re] used by the parser *)

Module Re.

Inductive cclass :=
| Word  (* \w *)
| Dot   (* .  : anything but a line feed *).

Definition in_class (cl : cclass) (c : ascii) : bool :=
  match cl with
  | Word => Py.is_word c
  | Dot => negb (Ascii.eqb c Py.LF)
  end.

Inductive regex :=
| Chr (c : ascii)
| Star (cl : cclass)
| Plus (cl : cclass)
| Seq (r1 r2 : regex)
| Group (r : regex).

(** A literal string is the sequence of its characters. *)
Fixpoint Lit (s : string) (r : regex) : regex :=
  match s with
  | EmptyString => r
  | String c s' => Seq (Chr c) (Lit s' r)
  end.

(** Greedy repetition of a one-character class with backtracking: the
    longest run is tried first, and a character is given back each time
    the rest of the pattern fails. *)
Fixpoint star {R} (cl : cclass) (s : string) (k : string -> option R)
  : option R :=
  match s with
  | String c s' =>
      if in_class cl c then
        match star cl s' k with
        | Some r => Some r
        | None => k s
        end
      else k s
  | EmptyString => k s
  end.

(** The backtracking matcher, in continuation-passing style: [k] is the
    rest of the pattern; captured groups are appended in the order in
    which the groups close. *)
Fixpoint run {R} (r : regex) (s : string) (caps : list string)
    (k : string -> list string -> option R) : option R :=
  match r with
  | Chr c =>
      match s with
      | String c' s' => if Ascii.eqb c c' then k s' caps else None
      | EmptyString => None
      end
  | Star cl => star cl s (fun s' => k s' caps)
  | Plus cl =>
      match s with
      | String c s' =>
          if in_class cl c then star cl s' (fun s'' => k s'' caps) else None
      | EmptyString => None
      end
  | Seq r1 r2 => run r1 s caps (fun s' caps' => run r2 s' caps' k)
  | Group r' =>
      run r' s caps
        (fun s' caps' =>
           k s' (caps' ++ [Py.take (String.length s - String.length s') s]))
  end.

(** [re.match(r, s)], returning [m.groups()]: anchored at the start of
    [s] only. *)
Definition rmatch (r : regex) (s : string) : option (list string) :=
  run r s [] (fun _ caps => Some caps).

(** *** What a successful match looks like *)

(** Every character of [s] is in the class. *)
Fixpoint all_class (cl : cclass) (s : string) : bool :=
  match s with
  | EmptyString => true
  | String c s' => in_class cl c && all_class cl s'
  end.

(** A run of the class cannot be extended into [s]. *)
Definition stops (cl : cclass) (s : string) : bool :=
  match s with
  | EmptyString => true
  | String c _ => negb (in_class cl c)
  end.

(** [lang r s caps]: [s] is a word of [r], with [caps] the texts of its
    groups. *)
Fixpoint lang (r : regex) (s : string) (caps : list string) : Prop :=
  match r with
  | Chr c => s = String c EmptyString /\ caps = []
  | Star cl => all_class cl s = true /\ caps = []
  | Plus cl => s <> EmptyString /\ all_class cl s = true /\ caps = []
  | Seq r1 r2 =>
      exists s1 s2 c1 c2,
        s = s1 +:+ s2 /\ caps = c1 ++ c2 /\ lang r1 s1 c1 /\ lang r2 s2 c2
  | Group r' => exists c, lang r' s c /\ caps = c ++ [s]
  end.

End Re.

(** ** The message parser *)

(** The pattern [:(\w+)!.*PRIVMSG #\w+ :(.+)]. *)
Definition PRIVMSG_PATTERN : Re.regex :=
  Re.Seq (Re.Chr ":"%char)
    (Re.Seq (Re.Group (Re.Plus Re.Word))
       (Re.Seq (Re.Chr "!"%char)
          (Re.Seq (Re.Star Re.Dot)
             (Re.Lit "PRIVMSG #"
                (Re.Seq (Re.Plus Re.Word)
                   (Re.Lit " :" (Re.Group (Re.Plus Re.Dot)))))))).

(** [_parse_irc_message]: the method does not read [self]; it cannot
    raise ([re.match], [str.strip] and the f-string are total on [str]),
    so the [except] branch is dead and the result is an [option]. *)
Definition _parse_irc_message (message : string) : option string :=
  if Py.contains "PRIVMSG" message then
    match Re.rmatch PRIVMSG_PATTERN message with
    | Some [username; chat_message] =>
        Some (username +:+ ": " +:+ Py.strip chat_message)
    | _ => None
    end
  else None.

(** ** JSON frames *)

#[warnings="-register-all"] Inductive json :=
| JNull
| JBool (b : bool)
| JNum (n : Z)
| JStr (s : string)
| JArr (l : list json)
| JObj (l : list (string * json)).

(** [len(v)]: defined on strings, arrays and objects; [None] is the
    [TypeError] Python raises on [null], booleans and numbers. *)
Definition py_len (v : json) : option nat :=
  match v with
  | JStr s => Some (String.length s)
  | JArr l => Some (length l)
  | JObj l => Some (length l)
  | JNull | JBool _ | JNum _ => None
  end.

(** [json.dumps] of a [str], with the default [ensure_ascii=True]. *)
Definition hex_digit (n : nat) : ascii :=
  if n <? 10 then ascii_of_nat (48 + n) else ascii_of_nat (87 + n).

Definition backslash : ascii := "092"%char.

Definition esc (s : string) : string := String backslash s.

Definition escape_char (c : ascii) : string :=
  let n := nat_of_ascii c in
  if Ascii.eqb c Py.dquote then esc (String Py.dquote EmptyString)
  else if Ascii.eqb c backslash then esc (String backslash EmptyString)
  else if n =? 10 then esc "n"
  else if n =? 13 then esc "r"
  else if n =? 9 then esc "t"
  else if n =? 8 then esc "b"
  else if n =? 12 then esc "f"
  else if (32 <=? n) && (n <=? 126) then String c EmptyString
  else esc "u00" +:+
       String (hex_digit (n / 16)) (String (hex_digit (n mod 16)) EmptyString).

Fixpoint escape (s : string) : string :=
  match s with
  | EmptyString => EmptyString
  | String c s' => escape_char c +:+ escape s'
  end.

Definition dumps_str (s : string) : string :=
  String Py.dquote (escape s) +:+ String Py.dquote EmptyString.

(** [json.dumps(d)] of a dictionary of strings, keys in insertion order,
    with the default separators [", "] and [": "]. *)
Fixpoint dumps_items (kvs : list (string * string)) : string :=
  match kvs with
  | [] => EmptyString
  | [(k, v)] => dumps_str k +:+ ": " +:+ dumps_str v
  | (k, v) :: rest => dumps_str k +:+ ": " +:+ dumps_str v +:+ ", " +:+ dumps_items rest
  end.

Definition dumps (kvs : list (string * string)) : string :=
  "{" +:+ dumps_items kvs +:+ "}".

(** [s] between double quotes, as it is written in a frame. *)
Definition quoted (s : string) : string :=
  String Py.dquote s +:+ String Py.dquote EmptyString.

(** ** The outside world *)

(** Calls that leave the process.  Socket handles are numbers. *)
Inductive action :=
| RelayConnect (url : string)          (* websockets.connect(url, ...) *)
| RelaySend (h : nat) (frame : string) (* self._websocket.send(frame) *)
| RelayRecv (h : nat)                  (* self._websocket.recv() *)
| RelayClose (h : nat)                 (* self._websocket.close() *)
| IrcCreate (url : string)             (* websocket.create_connection(url) *)
| IrcSend (h : nat) (data : string)    (* self._irc_socket.send(data) *)
| IrcRecv (h : nat)                    (* self._irc_socket.recv() *)
| IrcClose (h : nat)                   (* self._irc_socket.close() *).

(** What a call can raise: subclasses of [Exception].  Cancellation and
    keyboard interrupts injected by the event loop while a call is
    pending are outside the model of a single call. *)
Inductive failure :=
| ConnectionClosed (msg : string)  (* websockets.exceptions.ConnectionClosed *)
| Error (msg : string)             (* any other Exception *).

Definition failure_msg (f : failure) : string :=
  match f with ConnectionClosed m | Error m => m end.

Inductive exn :=
| Exc (f : failure)
| CancelledError
| KeyboardInterrupt.

Inductive level := DEBUG | INFO | WARNING | ERROR.

(** An object handed to the message handlers: a dictionary lives in the
    store and is passed by reference; other decoded values are immutable. *)
Inductive pyobj :=
| Ref (l : nat)
| Imm (v : json).

Inductive event :=
| Call (a : action) (raised : option failure)
| Log (lv : level) (msg : string)
| LogFrame (lv : level) (prefix : string) (shown : json + gmap string json)
| LogTraceback
| Sleep (seconds : nat)
| Invoke (i : nat) (arg : pyobj) (raised : option failure).

(** The value of an attribute read on the relay connection object. *)
Inductive attr :=
| AttrMissing          (* AttributeError *)
| AttrValue (v : bool) (* the truth value of what the attribute holds *)
| AttrRaises           (* the property raises another Exception *).

(** The store of dictionaries: [json.loads] and [dict.copy] allocate. *)
Record world := World {
  trace : list event;                 (* most recent event first *)
  heap : gmap nat (gmap string json);
}.

(** A registered handler: arbitrary code that receives the message, may
    update the store, and may raise. *)
Definition handler : Type :=
  pyobj -> gmap nat (gmap string json) -> gmap nat (gmap string json) * option failure.

(** The environment decides, from the history so far, whether a call
    raises, what a read returns and what the relay connection object
    shows.  The frame read from the relay is given as the JSON value it
    denotes; [None] stands for a text [json.loads] rejects. *)
Record environment := Environment {
  WEBSOCKET_CLIENT_AVAILABLE : bool;
  fails : list event -> action -> option failure;
  irc_data : list event -> string;
  relay_frame : list event -> option json;
  ws_attr : list event -> nat -> string -> attr;
}.

(** ** The platform object *)

Record TwitchLivePlatform := Platform {
  _channel : string;
  _oauth_token : string;
  _username : string;
  _websocket : option nat;
  _irc_socket : option nat;
  _connected : bool;
  _running : bool;
  _message_handlers : list handler;
}.

Definition set_websocket (v : option nat) (p : TwitchLivePlatform) :=
  Platform (_channel p) (_oauth_token p) (_username p) v (_irc_socket p)
    (_connected p) (_running p) (_message_handlers p).
Definition set_irc_socket (v : option nat) (p : TwitchLivePlatform) :=
  Platform (_channel p) (_oauth_token p) (_username p) (_websocket p) v
    (_connected p) (_running p) (_message_handlers p).
Definition set_connected (v : bool) (p : TwitchLivePlatform) :=
  Platform (_channel p) (_oauth_token p) (_username p) (_websocket p)
    (_irc_socket p) v (_running p) (_message_handlers p).
Definition set_running (v : bool) (p : TwitchLivePlatform) :=
  Platform (_channel p) (_oauth_token p) (_username p) (_websocket p)
    (_irc_socket p) (_connected p) v (_message_handlers p).
Definition add_handler (h : handler) (p : TwitchLivePlatform) :=
  Platform (_channel p) (_oauth_token p) (_username p) (_websocket p)
    (_irc_socket p) (_connected p) (_running p) (_message_handlers p ++ [h]).

(** [__init__]: [inl] is the [ImportError] raised when the
    websocket-client library is missing. *)
Definition __init__ (E : environment) (channel oauth_token username : string)
  : string + TwitchLivePlatform :=
  if negb (WEBSOCKET_CLIENT_AVAILABLE E) then
    inl "websocket-client library is required for Twitch functionality"
  else
    inr {| _channel := Py.lstrip_char "#" (Py.lower channel);
           _oauth_token := oauth_token;
           _username := if Py.truthy username then Py.lower username
                        else "justinfan12345";
           _websocket := None;
           _irc_socket := None;
           _connected := false;
           _running := false;
           _message_handlers := [] |}.

(** ** Computations: the object, the world, and Python exceptions *)

Inductive result (A : Type) :=
| Ret (a : A)
| Raise (e : exn).
Arguments Ret {A} a.
Arguments Raise {A} e.

Definition M (A : Type) : Type :=
  TwitchLivePlatform -> world -> result A * TwitchLivePlatform * world.

#[export] Instance M_ret : MRet M := fun A a self w => (Ret a, self, w).
#[export] Instance M_bind : MBind M := fun A B f m self w =>
  match m self w with
  | (Ret a, self', w') => f a self' w'
  | (Raise e, self', w') => (Raise e, self', w')
  end.

Definition raise {A} (e : exn) : M A := fun self w => (Raise e, self, w).
Definition get_self : M TwitchLivePlatform := fun self w => (Ret self, self, w).
Definition update (f : TwitchLivePlatform -> TwitchLivePlatform) : M unit :=
  fun self w => (Ret tt, f self, w).
Definition get_world : M world := fun self w => (Ret w, self, w).
Definition emit (ev : event) : M unit :=
  fun self w => (Ret tt, self, World (ev :: trace w) (heap w)).
Definition log (lv : level) (msg : string) : M unit := emit (Log lv msg).

(** [try: body  except ...]: [h] tells which exceptions are handled. *)
Definition try_catch {A} (body : M A) (h : exn -> option (M A)) : M A :=
  fun self w =>
    match body self w with
    | (Raise e, self', w') =>
        match h e with
        | Some k => k self' w'
        | None => (Raise e, self', w')
        end
    | r => r
    end.

(** [try: body  except Exception as e: h e] *)
Definition try_except {A} (body : M A) (h : failure -> M A) : M A :=
  try_catch body (fun e => match e with Exc f => Some (h f) | _ => None end).

(** [try: body  finally: fin] *)
Definition try_finally {A} (body : M A) (fin : M unit) : M A :=
  fun self w =>
    match body self w with
    | (r, self', w') =>
        match fin self' w' with
        | (Ret _, self'', w'') => (r, self'', w'')
        | (Raise e, self'', w'') => (Raise e, self'', w'')
        end
    end.

(** ** The methods of [TwitchLivePlatform] *)

Section Methods.

Variable E : environment.

(** A call that leaves the process: the environment decides from the
    history whether it raises; the call and its outcome are recorded. *)
Definition call (a : action) : M unit :=
  fun self w =>
    match fails E (trace w) a with
    | None => (Ret tt, self, World (Call a None :: trace w) (heap w))
    | Some f => (Raise (Exc f), self, World (Call a (Some f) :: trace w) (heap w))
    end.

(** A call that creates a socket: the new handle is numbered by the
    length of the history, so no two live handles share a number. *)
Definition open_socket (a : action) : M nat :=
  w ← get_world;
  call a;;
  mret (length (trace w)).

Definition truthy_handle (o : option nat) : bool :=
  match o with Some _ => true | None => false end.

(** Attributes of [self._websocket]; [None] has neither [closed] nor [open]. *)
Definition websocket_attr (tr : list event) (ws : option nat) (name : string)
  : attr :=
  match ws with
  | Some h => ws_attr E tr h name
  | None => AttrMissing
  end.

(** [hasattr(o, name)]: false on [AttributeError]; any other exception
    raised by the attribute escapes ([None]). *)
Definition py_hasattr (a : attr) : option bool :=
  match a with
  | AttrMissing => Some false
  | AttrValue _ => Some true
  | AttrRaises => None
  end.

(** [o.name]: its truth value, or an exception ([None]). *)
Definition py_getattr (a : attr) : option bool :=
  match a with
  | AttrValue v => Some v
  | AttrMissing | AttrRaises => None
  end.

(** The body of the [try] in [is_connected]; [None] is an exception.
    The result is the truth value of the returned object. *)
Definition is_connected_body (tr : list event) (self : TwitchLivePlatform)
  : option bool :=
  let ws := _websocket self in
  match py_hasattr (websocket_attr tr ws "closed") with
  | None => None
  | Some true =>
      if _connected self then
        if truthy_handle ws then
          negb <$> py_getattr (websocket_attr tr ws "closed")
        else Some false
      else Some false
  | Some false =>
      match py_hasattr (websocket_attr tr ws "open") with
      | None => None
      | Some true =>
          if _connected self then
            if truthy_handle ws then py_getattr (websocket_attr tr ws "open")
            else Some false
          else Some false
      | Some false => Some (_connected self && truthy_handle ws)
      end
  end.

(** The property [is_connected]: [except Exception: return False]. *)
Definition is_connected_at (tr : list event) (self : TwitchLivePlatform) : bool :=
  match is_connected_body tr self with
  | Some b => b
  | None => false
  end.

Definition is_connected : M bool :=
  fun self w => (Ret (is_connected_at (trace w) self), self, w).

(** [connect] *)
Definition connect (proxy_url : string) : M bool :=
  try_except
    (h ← open_socket (RelayConnect proxy_url);
     update (set_websocket (Some h));;
     update (set_connected true);;
     log INFO ("Connected to proxy at " +:+ proxy_url);;
     mret true)
    (fun e =>
       log ERROR ("Failed to connect to proxy: " +:+ failure_msg e);;
       mret false).

(** [disconnect] *)
Definition disconnect : M unit :=
  update (set_running false);;
  self ← get_self;
  match _irc_socket self with
  | Some h =>
      try_except
        (call (IrcClose h);;
         update (set_irc_socket None))
        (fun e =>
           log WARNING ("Error while closing Twitch IRC socket: " +:+ failure_msg e))
  | None => mret tt
  end;;
  match _websocket self with
  | Some h =>
      try_except
        (call (RelayClose h))
        (fun e => log WARNING ("Error while closing WebSocket: " +:+ failure_msg e))
  | None => mret tt
  end;;
  update (set_connected false);;
  log INFO "Disconnected from Twitch and proxy server".

(** The command [send_message] writes. *)
Definition privmsg_command (channel text : string) : string :=
  "PRIVMSG #" +:+ channel +:+ " :" +:+ text +:+ Py.CRLF.

(** [send_message] *)
Definition send_message (text : string) : M bool :=
  self ← get_self;
  match _irc_socket self with
  | Some h =>
      if Py.truthy (_oauth_token self) then
        try_except
          (call (IrcSend h (privmsg_command (_channel self) text));;
           log INFO ("Sent message to Twitch chat: " +:+ text);;
           mret true)
          (fun e =>
             log ERROR ("Error sending message to Twitch chat: " +:+ failure_msg e);;
             mret false)
      else
        (log WARNING "Cannot send message: No IRC connection or OAuth token";;
         mret false)
  | None =>
      log WARNING "Cannot send message: No IRC connection or OAuth token";;
      mret false
  end.

(** [register_message_handler] *)
Definition register_message_handler (h : handler) : M unit :=
  update (add_handler h);;
  log DEBUG "Registered new message handler".

Definition IRC_URL : string := "wss://irc-ws.chat.twitch.tv:443".

(** The commands [_connect_to_twitch_irc] writes. *)
Definition pass_command (token : string) : string :=
  let oauth_token :=
    if Py.truthy token && negb (Py.startswith "oauth:" token)
    then "oauth:" +:+ token else token in
  if Py.truthy oauth_token then "PASS " +:+ oauth_token +:+ Py.CRLF
  else "PASS oauth:anonymous" +:+ Py.CRLF.
Definition nick_command (username : string) : string :=
  "NICK " +:+ username +:+ Py.CRLF.
Definition join_command (channel : string) : string :=
  "JOIN #" +:+ channel +:+ Py.CRLF.

(** [_connect_to_twitch_irc] *)
Definition _connect_to_twitch_irc : M bool :=
  try_except
    (h ← open_socket (IrcCreate IRC_URL);
     update (set_irc_socket (Some h));;
     self ← get_self;
     call (IrcSend h (pass_command (_oauth_token self)));;
     call (IrcSend h (nick_command (_username self)));;
     call (IrcSend h (join_command (_channel self)));;
     log INFO ("Connected to Twitch IRC for channel #" +:+ _channel self);;
     mret true)
    (fun e =>
       log ERROR ("Failed to connect to Twitch IRC: " +:+ failure_msg e);;
       mret false).

(** The frame [_send_to_proxy] writes. *)
Definition text_input_frame (text : string) : string :=
  dumps [("type", "text-input"); ("text", text)].

(** [_send_to_proxy].  When [is_connected] holds a handle exists; the
    [None] branch is the [AttributeError] of [None.send], caught by the
    same handler. *)
Definition _send_to_proxy (text : string) : M bool :=
  c ← is_connected;
  if negb c then
    log ERROR "Cannot send message: Not connected to proxy";;
    mret false
  else
    try_except
      (self ← get_self;
       match _websocket self with
       | Some h => call (RelaySend h (text_input_frame text))
       | None => raise (Exc (Error "'NoneType' object has no attribute 'send'"))
       end;;
       log INFO ("Sent chat message to VTuber: " +:+ text);;
       mret true)
      (fun e =>
         log ERROR ("Error sending message to proxy: " +:+ failure_msg e);;
         update (set_connected false);;
         mret false).

(** [_handle_chat_message] *)
Definition _handle_chat_message (chat_text : string) : M unit :=
  try_except
    (_send_to_proxy chat_text;; mret tt)
    (fun e =>
       log ERROR ("Error forwarding chat message to proxy: " +:+ failure_msg e)).

End Methods.

(** ** The two read loops and the entry point *)

Section Loops.

Variable E : environment.

Fixpoint for_each {A} (body : A -> M unit) (l : list A) : M unit :=
  match l with
  | [] => mret tt
  | x :: l' => body x;; for_each body l'
  end.

(** What a [while] body tells its loop. *)
Inductive flow := Continue | Break.

(** The liveness response to a probe line. *)
Definition pong_message (line : string) : string :=
  Py.replace "PING" "PONG" line.

(** The body of [for line in response.strip().split('\r\n')]. *)
Definition process_line (line : string) : M unit :=
  if Py.is_empty line then mret tt
  else if Py.startswith "PING" line then
    self ← get_self;
    match _irc_socket self with
    | Some h => call E (IrcSend h (pong_message line +:+ Py.CRLF))
    | None => raise (Exc (Error "'NoneType' object has no attribute 'send'"))
    end
  else
    match _parse_irc_message line with
    | Some chat_message =>
        if Py.truthy chat_message then
          log DEBUG ("Received chat: " +:+ chat_message);;
          _handle_chat_message E chat_message
        else mret tt
    | None => mret tt
    end.

(** One received payload: every line of the batch, in order. *)
Definition process_response (response : string) : M unit :=
  for_each process_line (Py.split Py.CRLF (Py.strip response)).

(** [self._irc_socket.recv()] *)
Definition irc_recv : M string :=
  self ← get_self;
  w ← get_world;
  match _irc_socket self with
  | Some h => call E (IrcRecv h);; mret (irc_data E (trace w))
  | None => raise (Exc (Error "'NoneType' object has no attribute 'recv'"))
  end.

(** One round of the [while] of [_monitor_twitch_chat]. *)
Definition monitor_step : M flow :=
  try_except
    (response ← irc_recv;
     process_response response;;
     mret Continue)
    (fun e =>
       self ← get_self;
       if _running self then
         log ERROR ("Error monitoring Twitch chat: " +:+ failure_msg e);;
         emit (Sleep 1);;
         mret Continue
       else mret Break).

(** The [while] loop, for at most [rounds] rounds; the result tells
    whether the loop ended by itself. *)
Fixpoint monitor_loop (rounds : nat) : M bool :=
  match rounds with
  | O => mret false
  | S n =>
      self ← get_self;
      if _running self && truthy_handle (_irc_socket self) then
        f ← monitor_step;
        match f with
        | Continue => monitor_loop n
        | Break => mret true
        end
      else mret true
  end.

(** [_monitor_twitch_chat], observed for at most [rounds] rounds. *)
Definition _monitor_twitch_chat (rounds : nat) : M unit :=
  try_except
    (self ← get_self;
     log INFO ("Started monitoring Twitch chat for #" +:+ _channel self);;
     ended ← monitor_loop rounds;
     if ended : bool then log INFO "Stopped monitoring Twitch chat" else mret tt)
    (fun e =>
       log ERROR ("Error in Twitch chat monitoring loop: " +:+ failure_msg e)).

(** *** The relay receive loop *)

Definition alloc (d : gmap string json) : M nat :=
  fun self w =>
    let l := fresh (dom (heap w)) in
    (Ret l, self, World (trace w) (<[l := d]> (heap w))).

Definition load (l : nat) : M (gmap string json) :=
  fun self w =>
    match heap w !! l with
    | Some d => (Ret d, self, w)
    | None => (Raise (Exc (Error "dangling reference")), self, w)
    end.

(** [d[k] = v] on the dictionary stored at [l]. *)
Definition store (l : nat) (d : gmap string json) : M unit :=
  fun self w => (Ret tt, self, World (trace w) (<[l := d]> (heap w))).

Definition setitem (l : nat) (k : string) (v : json) : M unit :=
  d ← load l;
  store l (<[k := v]> d).

(** The dictionary [json.loads] builds from an object: a repeated key
    keeps its last value. *)
Definition dict_of (kvs : list (string * json)) : gmap string json :=
  foldl (fun d kv => <[kv.1 := kv.2]> d) ∅ kvs.

(** [json.loads]: an object becomes a fresh dictionary in the store. *)
Definition loads (frame : option json) : M pyobj :=
  match frame with
  | None => raise (Exc (Error "JSONDecodeError"))
  | Some (JObj kvs) => l ← alloc (dict_of kvs); mret (Ref l)
  | Some v => mret (Imm v)
  end.

Definition json_eqb_str (s : string) (v : json) : bool :=
  match v with JStr s' => String.eqb s s' | _ => false end.

(** [k in data] *)
Definition py_in (k : string) (data : pyobj) : M bool :=
  match data with
  | Ref l => d ← load l; mret (bool_decide (is_Some (d !! k)))
  | Imm (JStr s) => mret (Py.contains k s)
  | Imm (JArr vs) => mret (existsb (json_eqb_str k) vs)
  | Imm (JObj kvs) => mret (existsb (fun kv => String.eqb k kv.1) kvs)
  | Imm _ => raise (Exc (Error "argument is not iterable"))
  end.

Definition audio_marker (n : nat) : string :=
  "[Audio data, length: " +:+ Py.str_of_nat n +:+ "]".

Definition RECEIVED : string := "Received message from VTuber: ".

(** The logging block of [start_receiving]. *)
Definition log_received (data : pyobj) : M unit :=
  has_audio ← py_in "audio" data;
  if has_audio : bool then
    match data with
    | Ref l =>
        d ← load l;
        log_data ← alloc d;                       (* log_data = data.copy() *)
        d ← load l;
        match d !! "audio" with                   (* len(data['audio']) *)
        | Some a =>
            match py_len a with
            | Some n =>
                setitem log_data "audio" (JStr (audio_marker n));;
                shown ← load log_data;
                emit (LogFrame DEBUG RECEIVED (inr shown))
            | None => raise (Exc (Error "object has no len()"))
            end
        | None => raise (Exc (Error "KeyError: 'audio'"))
        end
    | Imm (JArr _) => raise (Exc (Error "list indices must be integers"))
    | Imm _ => raise (Exc (Error "object has no attribute 'copy'"))
    end
  else
    match data with
    | Ref l => shown ← load l; emit (LogFrame DEBUG RECEIVED (inr shown))
    | Imm v => emit (LogFrame DEBUG RECEIVED (inl v))
    end.

(** One handler call, in its [try]; the event records the argument. *)
Definition invoke (i : nat) (h : handler) (message : pyobj) : M unit :=
  fun self w =>
    let '(hp, raised) := h message (heap w) in
    let w' := World (Invoke i message raised :: trace w) hp in
    match raised with
    | None => (Ret tt, self, w')
    | Some e =>
        log ERROR ("Error in message handler: " +:+ failure_msg e) self w'
    end.

Fixpoint invoke_all (i : nat) (hs : list handler) (message : pyobj) : M unit :=
  match hs with
  | [] => mret tt
  | h :: hs' => invoke i h message;; invoke_all (S i) hs' message
  end.

(** [handle_incoming_messages] *)
Definition handle_incoming_messages (message : pyobj) : M unit :=
  self ← get_self;
  invoke_all 0 (_message_handlers self) message.

(** [await self._websocket.recv()] followed by [json.loads]. *)
Definition relay_recv : M pyobj :=
  self ← get_self;
  w ← get_world;
  match _websocket self with
  | Some h => call E (RelayRecv h);; loads (relay_frame E (trace w))
  | None => raise (Exc (Error "'NoneType' object has no attribute 'recv'"))
  end.

(** The [try] body of one round of [start_receiving]. *)
Definition receive_body : M unit :=
  data ← relay_recv;
  log_received data;;
  handle_incoming_messages data.

(** One round of the [while] of [start_receiving], with its handlers. *)
Definition receive_step : M flow :=
  try_except
    (receive_body;; mret Continue)
    (fun e =>
       match e with
       | ConnectionClosed _ =>
           log WARNING "WebSocket connection closed by server";;
           update (set_connected false);;
           mret Break
       | Error m =>
           log ERROR ("Error receiving message from proxy: " +:+ m);;
           emit (Sleep 1);;
           mret Continue
       end).

Fixpoint receive_loop (rounds : nat) : M bool :=
  match rounds with
  | O => mret false
  | S n =>
      self ← get_self;
      c ← is_connected E;
      if _running self && c then
        f ← receive_step;
        match f with
        | Continue => receive_loop n
        | Break => mret true
        end
      else mret true
  end.

(** [start_receiving], observed for at most [rounds] rounds. *)
Definition start_receiving (rounds : nat) : M unit :=
  c ← is_connected E;
  if negb c then log ERROR "Cannot start receiving: Not connected to proxy"
  else
    try_except
      (log INFO "Started receiving messages from proxy";;
       ended ← receive_loop rounds;
       if ended : bool then log INFO "Stopped receiving messages from proxy"
       else mret tt)
      (fun e =>
         log ERROR ("Error in message receiving loop: " +:+ failure_msg e)).

(** *** The entry point *)

Definition PROXY_URL : string := "ws://localhost:12393/proxy-ws".

(** [run].  [gather] stands for [await asyncio.gather(receive_task,
    chat_task)]: the two loops run interleaved, and the paths below hold
    for whatever that phase does. *)
Definition run (gather : M unit) : M unit :=
  try_finally
    (try_catch
       (update (set_running true);;
        ok ← connect E PROXY_URL;
        if negb ok then log ERROR "Failed to connect to proxy, exiting"
        else
          ok ← _connect_to_twitch_irc E;
          if negb ok then
            log ERROR "Failed to connect to Twitch IRC, exiting";;
            disconnect E
          else
            self ← get_self;
            log INFO ("Connected to Twitch channel #" +:+ _channel self);;
            try_catch gather
              (fun e =>
                 match e with
                 | CancelledError => Some (log INFO "Tasks cancelled")
                 | _ => None
                 end))
       (fun e =>
          match e with
          | KeyboardInterrupt =>
              Some (log INFO "Received keyboard interrupt, shutting down")
          | Exc f =>
              Some (log ERROR ("Error in Twitch Live run loop: " +:+ failure_msg f);;
                    emit LogTraceback)
          | CancelledError => None
          end))
    (disconnect E).

End Loops.

(** ** Reading a frame back *)

(** [json.loads] on the frames the relay is sent: an object whose
    members are all strings.  Escapes outside the 8-bit range are
    rejected by this reader. *)
Module Reader.

Definition is_ws (c : ascii) : bool :=
  let n := nat_of_ascii c in
  (n =? 32) || (n =? 9) || (n =? 10) || (n =? 13).

Fixpoint skip_ws (s : string) : string :=
  match s with
  | String c s' => if is_ws c then skip_ws s' else s
  | EmptyString => EmptyString
  end.

Definition unescape (e : ascii) : option ascii :=
  if Ascii.eqb e Py.dquote then Some Py.dquote
  else if Ascii.eqb e backslash then Some backslash
  else if Ascii.eqb e "/" then Some "/"%char
  else if Ascii.eqb e "b" then Some (ascii_of_nat 8)
  else if Ascii.eqb e "f" then Some (ascii_of_nat 12)
  else if Ascii.eqb e "n" then Some Py.LF
  else if Ascii.eqb e "r" then Some Py.CR
  else if Ascii.eqb e "t" then Some (ascii_of_nat 9)
  else None.

Definition hex_value (c : ascii) : option nat :=
  let n := nat_of_ascii c in
  if (48 <=? n) && (n <=? 57) then Some (n - 48)
  else if (97 <=? n) && (n <=? 102) then Some (n - 87)
  else if (65 <=? n) && (n <=? 70) then Some (n - 55)
  else None.

Definition hex4 (a b c d : ascii) : option ascii :=
  match hex_value a, hex_value b, hex_value c, hex_value d with
  | Some 0, Some 0, Some x, Some y => Some (ascii_of_nat (16 * x + y))
  | _, _, _, _ => None
  end.

(** The characters of a string literal, after its opening quote, and
    what follows its closing quote. *)
Fixpoint read_string (s : string) : option (string * string) :=
  match s with
  | EmptyString => None
  | String c s' =>
      if Ascii.eqb c Py.dquote then Some (EmptyString, s')
      else if Ascii.eqb c backslash then
        match s' with
        | String e s'' =>
            if Ascii.eqb e "u" then
              match s'' with
              | String h1 (String h2 (String h3 (String h4 s5))) =>
                  match hex4 h1 h2 h3 h4, read_string s5 with
                  | Some d, Some (r, rest) => Some (String d r, rest)
                  | _, _ => None
                  end
              | _ => None
              end
            else
              match unescape e, read_string s'' with
              | Some d, Some (r, rest) => Some (String d r, rest)
              | _, _ => None
              end
        | EmptyString => None
        end
      else if nat_of_ascii c <? 32 then None
      else
        match read_string s' with
        | Some (r, rest) => Some (String c r, rest)
        | None => None
        end
  end.

Definition read_quoted (s : string) : option (string * string) :=
  match s with
  | String c s' => if Ascii.eqb c Py.dquote then read_string s' else None
  | EmptyString => None
  end.

(** The members of an object, up to and including its closing brace. *)
Fixpoint read_members (rounds : nat) (s : string)
  : option (list (string * string)) :=
  match rounds with
  | O => None
  | S n =>
      match read_quoted s with
      | Some (k, s1) =>
          match skip_ws s1 with
          | String c1 s2 =>
              if Ascii.eqb c1 ":" then
                match read_quoted (skip_ws s2) with
                | Some (v, s3) =>
                    match skip_ws s3 with
                    | String c2 s4 =>
                        if Ascii.eqb c2 "," then
                          match read_members n (skip_ws s4) with
                          | Some rest => Some ((k, v) :: rest)
                          | None => None
                          end
                        else if Ascii.eqb c2 "}" then
                          if Py.is_empty (skip_ws s4) then Some [(k, v)]
                          else None
                        else None
                    | EmptyString => None
                    end
                | None => None
                end
              else None
          | EmptyString => None
          end
      | None => None
      end
  end.

Definition loads (s : string) : option (list (string * string)) :=
  match skip_ws s with
  | String c s1 =>
      if Ascii.eqb c "{" then
        match skip_ws s1 with
        | String c' s2 =>
            if Ascii.eqb c' "}" then
              if Py.is_empty (skip_ws s2) then Some [] else None
            else read_members (String.length s) (String c' s2)
        | EmptyString => None
        end
      else None
  | EmptyString => None
  end.

End Reader.

(** ** Observations on histories and states *)

Definition is_chat_connect (ev : event) : bool :=
  match ev with
  | Call (IrcCreate _) _ => true
  | _ => false
  end.

Definition is_send (ev : event) : bool :=
  match ev with
  | Call (RelaySend _ _) _ | Call (IrcSend _ _) _ => true
  | _ => false
  end.

(** Neither a chat connection attempt nor a write on either socket. *)
Definition harmless (ev : event) : Prop :=
  is_chat_connect ev = false /\ is_send ev = false.

Definition is_invoke (ev : event) : bool :=
  match ev with
  | Invoke _ _ _ => true
  | _ => false
  end.

(** The state after a shutdown: both flags off, and the relay seen as
    not connected. *)
Definition Disconnected (E : environment) (self : TwitchLivePlatform)
    (w : world) : Prop :=
  _running self = false /\ _connected self = false /\
  is_connected_at E (trace w) self = false.

(** Every socket [self] holds has had [close()] called on it among [evs]. *)
Definition released (self : TwitchLivePlatform) (evs : list event) : Prop :=
  (forall h, _irc_socket self = Some h -> exists o, Call (IrcClose h) o ∈ evs) /\
  (forall h, _websocket self = Some h -> exists o, Call (RelayClose h) o ∈ evs).

(** The connection object says it is open: [closed] is false or, on an
    object without [closed], [open] is true. *)
Definition reports_open (E : environment) (tr : list event) (ws : option nat)
  : bool :=
  match websocket_attr E tr ws "closed" with
  | AttrValue c => negb c
  | AttrRaises => false
  | AttrMissing =>
      match websocket_attr E tr ws "open" with
      | AttrValue o => o
      | AttrMissing | AttrRaises => false
      end
  end.

(** The connection object has neither a [closed] nor an [open] attribute. *)
Definition exposes_no_state (E : environment) (tr : list event)
    (ws : option nat) : bool :=
  match websocket_attr E tr ws "closed", websocket_attr E tr ws "open" with
  | AttrMissing, AttrMissing => true
  | _, _ => false
  end.

(** A method leaves the stored channel alone. *)
Definition keeps_channel {A} (m : M A) : Prop :=
  forall self w, _channel (m self w).1.2 = _channel self.

(** ** Sample environments and instances *)

(** Nothing fails; the relay connection object has the [closed] and
    [open] properties of the legacy client and is open. *)
Definition calm : environment :=
  {| WEBSOCKET_CLIENT_AVAILABLE := true;
     fails := fun _ _ => None;
     irc_data := fun _ => EmptyString;
     relay_frame := fun _ => None;
     ws_attr := fun _ _ name =>
       if String.eqb name "closed" then AttrValue false
       else if String.eqb name "open" then AttrValue true
       else AttrMissing |}.

(** The relay refuses the connection. *)
Definition relay_down : environment :=
  {| WEBSOCKET_CLIENT_AVAILABLE := true;
     fails := fun _ a =>
       match a with
       | RelayConnect _ => Some (Error "connection refused")
       | _ => None
       end;
     irc_data := irc_data calm;
     relay_frame := relay_frame calm;
     ws_attr := ws_attr calm |}.

(** The chat server refuses the connection. *)
Definition chat_down : environment :=
  {| WEBSOCKET_CLIENT_AVAILABLE := true;
     fails := fun _ a =>
       match a with
       | IrcCreate _ => Some (Error "connection refused")
       | _ => None
       end;
     irc_data := irc_data calm;
     relay_frame := relay_frame calm;
     ws_attr := ws_attr calm |}.

(** A relay connection object with neither [closed] nor [open]. *)
Definition bare : environment :=
  {| WEBSOCKET_CLIENT_AVAILABLE := true;
     fails := fails calm;
     irc_data := irc_data calm;
     relay_frame := relay_frame calm;
     ws_attr := fun _ _ _ => AttrMissing |}.

(** The relay delivers a frame [{"type": "audio", "audio": null}]. *)
Definition NULL_AUDIO_FRAME : json :=
  JObj [("type", JStr "audio"); ("audio", JNull)].

Definition null_audio : environment :=
  {| WEBSOCKET_CLIENT_AVAILABLE := true;
     fails := fails calm;
     irc_data := irc_data calm;
     relay_frame := fun _ => Some NULL_AUDIO_FRAME;
     ws_attr := ws_attr calm |}.

(** The relay delivers a frame whose audio is a short text. *)
Definition AUDIO_FRAME : json :=
  JObj [("type", JStr "audio"); ("audio", JStr "UklG")].

Definition with_audio : environment :=
  {| WEBSOCKET_CLIENT_AVAILABLE := true;
     fails := fails calm;
     irc_data := irc_data calm;
     relay_frame := fun _ => Some AUDIO_FRAME;
     ws_attr := ws_attr calm |}.

Definition nobody : TwitchLivePlatform :=
  Platform EmptyString EmptyString EmptyString None None false false [].

(** The instance built for channel [bobstream], before any connection. *)
Definition bob : TwitchLivePlatform :=
  match __init__ calm "#BobStream" EmptyString EmptyString with
  | inr p => p
  | inl _ => nobody
  end.

(** A handler that only looks at its message. *)
Definition quiet_handler : handler := fun _ hp => (hp, None).

(** The same instance once both connections are up (relay handle 0,
    chat handle 2), with one handler and a token. *)
Definition bob_live : TwitchLivePlatform :=
  Platform "bobstream" "abc123" "justinfan12345" (Some 0) (Some 2) true true
    [quiet_handler].

Definition nothing_yet : world := World [] ∅.

(** The handler index and the argument of a handler call. *)
Definition invoked (ev : event) : option (nat * pyobj) :=
  match ev with
  | Invoke i arg _ => Some (i, arg)
  | _ => None
  end.

(** ** More observations on histories *)

Definition is_irc_send (ev : event) : bool :=
  match ev with
  | Call (IrcSend _ _) _ => true
  | _ => false
  end.

Definition is_relay_send (ev : event) : bool :=
  match ev with
  | Call (RelaySend _ _) _ => true
  | _ => false
  end.


(** A call that leaves the process, whatever its outcome. *)
Definition is_call (ev : event) : bool :=
  match ev with
  | Call _ _ => true
  | _ => false
  end.

(** ** The start-up script [scripts/run_twitch_live.py] *)

Module Config.

(** [TwitchLiveConfig] of [config_manager/live.py]; every field defaults
    to the empty string. *)
Record TwitchLiveConfig := {
  channel : string;
  oauth_token : string;
  username : string;
}.

Definition default : TwitchLiveConfig :=
  {| channel := EmptyString; oauth_token := EmptyString;
     username := EmptyString |}.

End Config.

Definition logw (lv : level) (msg : string) (w : world) : world :=
  World (Log lv msg :: trace w) (heap w).

(** [main].  [loaded] is the outcome of [read_yaml] followed by
    [validate_config]: the Twitch section of the configuration, or the
    exception one of them raised.  [gather] is the concurrent phase of
    [run]. *)
Definition main (E : environment) (gather : M unit)
    (loaded : failure + Config.TwitchLiveConfig) (w : world)
  : result unit * world :=
  let w := logw INFO "Starting Twitch Live platform client" w in
  match loaded with
  | inl e =>
      (Ret tt,
       World (LogTraceback
                :: Log ERROR ("Error starting Twitch Live client: " +:+ failure_msg e)
                :: trace w) (heap w))
  | inr twitch_config =>
      if negb (Py.truthy (Config.channel twitch_config)) then
        (Ret tt,
         logw ERROR
           "No Twitch channel specified in configuration. Please add a channel name."
           w)
      else
        let w :=
          logw INFO ("Connecting to Twitch channel: #"
                       +:+ Config.channel twitch_config) w in
        match __init__ E (Config.channel twitch_config)
                (Config.oauth_token twitch_config)
                (Config.username twitch_config) with
        | inl e =>
            (Ret tt,
             logw ERROR
               "Make sure you have installed websocket-client with: pip install websocket-client"
               (logw ERROR ("Failed to import required modules: " +:+ e) w))
        | inr platform =>
            match run E gather platform w with
            | (Ret _, _, w') => (Ret tt, w')
            | (Raise (Exc e), _, w') =>
                (Ret tt,
                 World (LogTraceback
                          :: Log ERROR ("Error starting Twitch Live client: "
                                          +:+ failure_msg e)
                          :: trace w') (heap w'))
            | (Raise e, _, w') => (Raise e, w')
            end
        end
  end.

(** The library is missing. *)
Definition no_library : environment :=
  {| WEBSOCKET_CLIENT_AVAILABLE := false;
     fails := fails calm;
     irc_data := irc_data calm;
     relay_frame := relay_frame calm;
     ws_attr := ws_attr calm |}.

(** Every write on the chat socket fails. *)
Definition chat_mute : environment :=
  {| WEBSOCKET_CLIENT_AVAILABLE := true;
     fails := fun _ a =>
       match a with
       | IrcSend _ _ => Some (Error "broken pipe")
       | _ => None
       end;
     irc_data := fun _ => "PING :tmi.twitch.tv" +:+ Py.CRLF +:+ "PING :again";
     relay_frame := relay_frame calm;
     ws_attr := ws_attr calm |}.

(** Every write on the relay fails. *)
Definition relay_mute : environment :=
  {| WEBSOCKET_CLIENT_AVAILABLE := true;
     fails := fun _ a =>
       match a with
       | RelaySend _ _ => Some (Error "broken pipe")
       | _ => None
       end;
     irc_data := irc_data calm;
     relay_frame := relay_frame calm;
     ws_attr := ws_attr calm |}.

(** The server closes the relay connection while a read is pending. *)
Definition relay_hangup : environment :=
  {| WEBSOCKET_CLIENT_AVAILABLE := true;
     fails := fun _ a =>
       match a with
       | RelayRecv _ => Some (ConnectionClosed "going away")
       | _ => None
       end;
     irc_data := irc_data calm;
     relay_frame := relay_frame calm;
     ws_attr := ws_attr calm |}.

(** The relay delivers a frame that is a bare JSON string. *)
Definition STRING_FRAME : json := JStr "pong".

Definition with_string : environment :=
  {| WEBSOCKET_CLIENT_AVAILABLE := true;
     fails := fails calm;
     irc_data := irc_data calm;
     relay_frame := fun _ => Some STRING_FRAME;
     ws_attr := ws_attr calm |}.

(** The concurrent phase of [run] is cancelled. *)
Definition cancelled : M unit := raise CancelledError.

(** The configuration of the sample instance. *)
Definition bob_config : Config.TwitchLiveConfig :=
  {| Config.channel := "#BobStream";
     Config.oauth_token := EmptyString;
     Config.username := EmptyString |}.

(** Every character of [s] is a printable ASCII character. *)
Fixpoint printable (s : string) : bool :=
  match s with
  | EmptyString => true
  | String c s' =>
      (32 <=? nat_of_ascii c) && (nat_of_ascii c <=? 126) && printable s'
  end.

(** ** Proof steps used throughout *)

(** Unfold the operations of [M]. *)
Ltac unfold_m :=
  repeat progress
    unfold mbind, M_bind, mret, M_ret, try_except, try_catch, try_finally,
      update, get_self, get_world, emit, log, raise, call, open_socket,
      is_connected in *.

(** The events at the head of history [l] that are not in [t]. *)
Ltac prefix_of l t :=
  lazymatch l with
  | t => constr:(@nil event)
  | ?x :: ?l' => let r := prefix_of l' t in constr:(x :: r)
  end.

Ltac exists_prefix :=
  lazymatch goal with
  | |- exists evs, ?l = evs ++ ?t /\ _ =>
      let p := prefix_of l t in exists p; split; [reflexivity |]
  end.

(** Find an event in an explicit history. *)
Ltac find_event :=
  first [ apply list_elem_of_here
        | apply list_elem_of_further; find_event ].

Ltac case_env E :=
  repeat (match goal with
          | |- context [fails E ?t ?a] => destruct (fails E t a) eqn:?; simpl
          end).

(** Split membership in an explicit list of events into its cases. *)
Ltac split_events Hev :=
  repeat (apply elem_of_cons in Hev as [Hev | Hev]; [subst |]);
  try (by apply elem_of_nil in Hev).

Ltac finish_events :=
  first [ done | simpl; lia
        | (let ev := fresh "ev" in let Hev := fresh "Hev" in
           intros ev Hev; split_events Hev; simpl; try done;
           try (intros _; first [ by left | by right
                                | do 3 eexists; split; reflexivity ])) ].

(** * Sanity checks of the parser *)

Example parse_alice :
  _parse_irc_message
    (":alice!alice@alice.tmi.twitch.tv PRIVMSG #bobstream :hello world" +:+ Py.CRLF)
  = Some "alice: hello world".
Proof. vm_compute. reflexivity. Qed.

Example parse_ping : _parse_irc_message "PING :tmi.twitch.tv" = None.
Proof. reflexivity. Qed.

Example parse_greedy :
  _parse_irc_message ":al!al@x PRIVMSG #chan :say PRIVMSG #x :y" = Some "al: y".
Proof. vm_compute. reflexivity. Qed.

(** * Facts about the string primitives *)

Module PyFacts.
Import Py.

#[local] Arguments String.append !s1 s2 : simpl nomatch.

Lemma sapp_nil_r (s : string) : s +:+ EmptyString = s.
Proof. induction s as [|c s IH]; simpl; [done | by rewrite IH]. Qed.

Lemma sapp_assoc (a b c : string) : (a +:+ b) +:+ c = a +:+ (b +:+ c).
Proof. induction a as [|x a IH]; simpl; [done | by rewrite IH]. Qed.

Lemma length_sapp (a b : string) :
  String.length (a +:+ b) = String.length a + String.length b.
Proof. induction a as [|x a IH]; simpl; [done | by rewrite IH]. Qed.

Lemma take_app (a b : string) : take (String.length a) (a +:+ b) = a.
Proof. induction a as [|x a IH]; simpl; [by destruct b | by rewrite IH]. Qed.

Lemma take_app_suffix (a b : string) :
  take (String.length (a +:+ b) - String.length b) (a +:+ b) = a.
Proof.
  rewrite length_sapp.
  replace (String.length a + String.length b - String.length b)
    with (String.length a) by lia.
  apply take_app.
Qed.

Lemma drop_app (a b : string) : drop (String.length a) (a +:+ b) = b.
Proof. induction a as [|x a IH]; simpl; [by destruct b | done]. Qed.

Lemma ascii_eqb_refl (c : ascii) : Ascii.eqb c c = true.
Proof. by apply Ascii.eqb_eq. Qed.

Lemma startswith_app (p s : string) : startswith p (p +:+ s) = true.
Proof.
  induction p as [|x p IH]; simpl; [done |].
  by rewrite ascii_eqb_refl, IH.
Qed.

Lemma startswith_inv (p s : string) :
  startswith p s = true -> exists t, s = p +:+ t.
Proof.
  revert s; induction p as [|x p IH]; intros s H; simpl in *.
  - by exists s.
  - destruct s as [|y s]; [done |].
    apply andb_true_iff in H as [Hxy Hp].
    apply Ascii.eqb_eq in Hxy as ->.
    destruct (IH _ Hp) as [t ->]. by exists t.
Qed.

Lemma contains_suffix (sub a b : string) :
  contains sub (a +:+ b) = false -> contains sub b = false.
Proof.
  induction a as [|x a IH]; simpl; [done |].
  intros H. apply orb_false_iff in H as [_ H]. by apply IH.
Qed.

Lemma contains_startswith (sub s : string) :
  contains sub s = false -> startswith sub s = false.
Proof. destruct s; simpl; intros H; by apply orb_false_iff in H as [H _]. Qed.

Lemma contains_intro (sub a b : string) :
  contains sub (a +:+ sub +:+ b) = true.
Proof.
  induction a as [|x a IH]; simpl.
  - destruct (sub +:+ b) eqn:Hs; simpl.
    + rewrite <- Hs. by rewrite startswith_app.
    + rewrite <- Hs. by rewrite startswith_app.
  - rewrite IH. by rewrite orb_true_r.
Qed.

End PyFacts.

(** * Facts about the matcher *)

Module ReFacts.
Import Py Re PyFacts.

#[local] Arguments String.append !s1 s2 : simpl nomatch.

Lemma all_class_app (cl : cclass) (a b : string) :
  all_class cl (a +:+ b) = all_class cl a && all_class cl b.
Proof.
  induction a as [|x a IH]; simpl; [done |].
  by rewrite IH, andb_assoc.
Qed.

(** When no later cut point lets the rest of the pattern succeed, the
    repetition matches nothing more. *)
Lemma star_here {R} cl (s : string) (k : string -> option R) :
  (forall a b, a <> EmptyString -> s = a +:+ b ->
               all_class cl a = true -> k b = None) ->
  star cl s k = k s.
Proof.
  induction s as [|c s IH]; intros Hlater; simpl; [done |].
  destruct (in_class cl c) eqn:Hc; [| done].
  rewrite IH.
  - rewrite (Hlater (String c EmptyString) s); simpl; try done.
    by rewrite Hc.
  - intros a b Ha -> Hall.
    apply (Hlater (String c a) b); simpl; try done.
    by rewrite Hc, Hall.
Qed.

(** The greedy choice: the longest run after which the rest succeeds. *)
Lemma star_pick {R} cl (u s : string) (k : string -> option R) r :
  all_class cl u = true ->
  k s = Some r ->
  (forall a b, a <> EmptyString -> s = a +:+ b ->
               all_class cl a = true -> k b = None) ->
  star cl (u +:+ s) k = Some r.
Proof.
  induction u as [|c u IH]; simpl; intros Hu Hk Hlater.
  - by rewrite star_here.
  - apply andb_true_iff in Hu as [Hc Hu].
    by rewrite Hc, IH.
Qed.

Lemma stops_later cl (s a b : string) :
  stops cl s = true -> a <> EmptyString -> s = a +:+ b ->
  all_class cl a = true -> False.
Proof.
  intros Hs Ha -> Hall.
  destruct a as [|c a]; [done |]. simpl in *.
  apply andb_true_iff in Hall as [Hc _].
  by rewrite Hc in Hs.
Qed.

Lemma run_lit {R} l r (s : string) caps (k : string -> list string -> option R) :
  run (Lit l r) (l +:+ s) caps k = run r s caps k.
Proof.
  induction l as [|c l IH]; simpl; [done |].
  by rewrite ascii_eqb_refl.
Qed.

Lemma run_lit_none {R} l r (s : string) caps
    (k : string -> list string -> option R) :
  startswith l s = false -> run (Lit l r) s caps k = None.
Proof.
  revert s; induction l as [|c l IH]; intros s H; simpl in *; [done |].
  destruct s as [|c' s]; [done |].
  destruct (Ascii.eqb c c'); simpl in *; [by apply IH | done].
Qed.

Lemma run_star_pick {R} cl (u s : string) caps
    (k : string -> list string -> option R) r :
  all_class cl u = true ->
  k s caps = Some r ->
  (forall a b, a <> EmptyString -> s = a +:+ b ->
               all_class cl a = true -> k b caps = None) ->
  run (Star cl) (u +:+ s) caps k = Some r.
Proof. intros. simpl. by apply star_pick. Qed.

Lemma run_plus_stop {R} cl (u s : string) caps
    (k : string -> list string -> option R) :
  u <> EmptyString ->
  all_class cl u = true ->
  stops cl s = true ->
  is_Some (k s caps) ->
  run (Plus cl) (u +:+ s) caps k = k s caps.
Proof.
  intros Hne Hu Hs [r Hk].
  destruct u as [|c u]; [done |]. simpl in *.
  apply andb_true_iff in Hu as [Hc Hu]. rewrite Hc, Hk.
  apply star_pick; try done.
  intros a b Ha Hab Hall. exfalso. eapply stops_later; eauto.
Qed.

Lemma run_group {R} r (s : string) caps
    (k : string -> list string -> option R) :
  run (Group r) s caps k
  = run r s caps
      (fun s' caps' =>
         k s' (caps' ++ [take (String.length s - String.length s') s])).
Proof. reflexivity. Qed.

Lemma run_group_plus_stop {R} cl (u s : string) caps
    (k : string -> list string -> option R) :
  u <> EmptyString ->
  all_class cl u = true ->
  stops cl s = true ->
  is_Some (k s (caps ++ [u])) ->
  run (Group (Plus cl)) (u +:+ s) caps k = k s (caps ++ [u]).
Proof.
  intros Hne Hu Hs Hk.
  rewrite run_group, run_plus_stop; rewrite ?take_app_suffix; done.
Qed.

(** Soundness: a successful run has consumed a word of the pattern. *)
Lemma star_sound {R} cl (s : string) (k : string -> option R) res :
  star cl s k = Some res ->
  exists s1 s2, s = s1 +:+ s2 /\ all_class cl s1 = true /\ k s2 = Some res.
Proof.
  induction s as [|c s IH]; simpl; intros H.
  - by exists EmptyString, EmptyString.
  - destruct (in_class cl c) eqn:Hc.
    + destruct (star cl s k) as [r|] eqn:Hs.
      * destruct (IH H) as (s1 & s2 & -> & Hall & Hk).
        exists (String c s1), s2. simpl. by rewrite Hc, Hall.
      * by exists EmptyString, (String c s).
    + by exists EmptyString, (String c s).
Qed.

Lemma run_sound {R} r : forall (s : string) caps
    (k : string -> list string -> option R) res,
  run r s caps k = Some res ->
  exists s1 s2 cs,
    s = s1 +:+ s2 /\ lang r s1 cs /\ k s2 (caps ++ cs) = Some res.
Proof.
  induction r as [c|cl|cl|r1 IH1 r2 IH2|r IH]; intros s caps k res H; simpl in H.
  - destruct s as [|c' s]; [done |].
    destruct (Ascii.eqb c c') eqn:Hc; [| done].
    apply Ascii.eqb_eq in Hc as <-.
    exists (String c EmptyString), s, []. by rewrite (right_id_L [] (++)).
  - apply star_sound in H as (s1 & s2 & -> & Hall & Hk).
    exists s1, s2, []. by rewrite (right_id_L [] (++)).
  - destruct s as [|c s]; [done |].
    destruct (in_class cl c) eqn:Hc; [| done].
    apply star_sound in H as (s1 & s2 & -> & Hall & Hk).
    exists (String c s1), s2, []. simpl. rewrite Hc, Hall, (right_id_L [] (++)). done.
  - apply IH1 in H as (s1 & s2 & c1 & -> & L1 & H).
    apply IH2 in H as (s3 & s4 & c2 & -> & L2 & H).
    exists (s1 +:+ s3), s4, (c1 ++ c2). split_and!.
    + by rewrite sapp_assoc.
    + simpl. by exists s1, s3, c1, c2.
    + by rewrite (assoc_L (++)).
  - apply IH in H as (s1 & s2 & c1 & -> & L1 & H).
    rewrite take_app_suffix in H.
    exists s1, s2, (c1 ++ [s1]). split_and!; [done | by exists c1 |].
    by rewrite (assoc_L (++)).
Qed.

Lemma lang_lit l r (s : string) caps :
  lang (Lit l r) s caps -> exists t, s = l +:+ t /\ lang r t caps.
Proof.
  revert s caps; induction l as [|c l IH]; intros s caps H; simpl in *.
  - by exists s.
  - destruct H as (s1 & s2 & c1 & c2 & -> & -> & [-> ->] & H2).
    apply IH in H2 as (t & -> & H2). by exists t.
Qed.

End ReFacts.

(** * The pattern of the parser *)

Module ParserFacts.
Import Py Re PyFacts ReFacts.

#[local] Arguments String.append !s1 s2 : simpl nomatch.

Lemma run_seq {R} r1 r2 (s : string) caps
    (k : string -> list string -> option R) :
  run (Seq r1 r2) s caps k = run r1 s caps (fun s' caps' => run r2 s' caps' k).
Proof. reflexivity. Qed.

Lemma run_chr {R} c (s : string) caps (k : string -> list string -> option R) :
  run (Chr c) (String c EmptyString +:+ s) caps k = k s caps.
Proof. simpl. by rewrite ascii_eqb_refl. Qed.

Lemma run_plus_some {R} cl (u s : string) caps
    (k : string -> list string -> option R) r :
  u <> EmptyString -> all_class cl u = true -> stops cl s = true ->
  k s caps = Some r ->
  run (Plus cl) (u +:+ s) caps k = Some r.
Proof. intros ??? Hk. rewrite run_plus_stop; rewrite ?Hk; done. Qed.

Lemma run_group_plus_some {R} cl (u s : string) caps
    (k : string -> list string -> option R) r :
  u <> EmptyString -> all_class cl u = true -> stops cl s = true ->
  k s (caps ++ [u]) = Some r ->
  run (Group (Plus cl)) (u +:+ s) caps k = Some r.
Proof. intros ??? Hk. rewrite run_group_plus_stop; rewrite ?Hk; done. Qed.

Lemma contains_app_r (sub a b : string) :
  contains sub b = true -> contains sub (a +:+ b) = true.
Proof.
  intros H. induction a as [|x a IH]; simpl; [done |].
  by rewrite IH, orb_true_r.
Qed.

(** A run of word characters followed by [" :"] does not begin with the
    command and its channel mark. *)
Lemma word_run_not_privmsg (w t : string) :
  all_class Word w = true ->
  startswith "PRIVMSG #" (w +:+ " :" +:+ t) = false.
Proof.
  intros Hw. destruct (startswith _ _) eqn:H; [| done]. exfalso.
  apply startswith_inv in H as [t' H].
  do 7 (destruct w as [|? w]; simpl in H; [discriminate |];
        injection H as -> H;
        apply andb_true_iff in Hw as [_ Hw]).
  destruct w as [|? w]; simpl in H; [discriminate |].
  injection H as -> H.
  apply andb_true_iff in Hw as [Hw _]. by vm_compute in Hw.
Qed.

Lemma no_privmsg_inside (chan text a b : string) :
  all_class Word chan = true ->
  contains "PRIVMSG #" text = false ->
  chan +:+ " :" +:+ text = a +:+ b ->
  startswith "PRIVMSG #" b = false.
Proof.
  intros Hchan Htext. revert a.
  induction chan as [|c chan IH]; intros a Hab.
  - destruct a as [|x a]; simpl in Hab; [by subst |].
    injection Hab as <- Hab.
    destruct a as [|y a]; simpl in Hab; [by subst |].
    injection Hab as <- Hab. subst text.
    by apply contains_suffix, contains_startswith in Htext.
  - destruct a as [|x a]; simpl in Hab.
    + subst b. by apply (word_run_not_privmsg (String c chan)).
    + injection Hab as <- Hab. simpl in Hchan.
      apply andb_true_iff in Hchan as [_ Hchan]. by eapply IH.
Qed.

(** No later cut point inside [PRIVMSG #chan :text] starts the command
    again when the text does not contain it. *)
Lemma no_later_privmsg (chan text a b : string) :
  all_class Word chan = true ->
  contains "PRIVMSG #" text = false ->
  a <> EmptyString ->
  "PRIVMSG #" +:+ chan +:+ " :" +:+ text = a +:+ b ->
  startswith "PRIVMSG #" b = false.
Proof.
  intros Hchan Htext Ha Hab.
  destruct a as [|c1 a]; [done |]. simpl in Hab. injection Hab as <- Hab.
  do 8 (destruct a as [|? a]; simpl in Hab; [by subst b|]; injection Hab as <- Hab).
  by eapply no_privmsg_inside.
Qed.

(** The pattern on a well-formed chat post. *)
Lemma rmatch_privmsg (user mid chan text : string) :
  user <> EmptyString -> all_class Word user = true ->
  all_class Dot mid = true ->
  chan <> EmptyString -> all_class Word chan = true ->
  text <> EmptyString -> all_class Dot text = true ->
  contains "PRIVMSG #" text = false ->
  rmatch PRIVMSG_PATTERN
    (":" +:+ user +:+ "!" +:+ mid +:+ "PRIVMSG #" +:+ chan +:+ " :" +:+ text)
  = Some [user; text].
Proof.
  intros Hu1 Hu2 Hmid Hc1 Hc2 Ht1 Ht2 Hfree.
  unfold rmatch, PRIVMSG_PATTERN.
  rewrite run_seq, run_chr, run_seq.
  apply run_group_plus_some; [done..|].
  rewrite run_seq, run_chr, run_seq.
  apply run_star_pick; [done | |].
  - rewrite run_lit, run_seq.
    apply run_plus_some; [done..|].
    rewrite run_lit.
    rewrite <- (sapp_nil_r text) at 1.
    by apply run_group_plus_some.
  - intros a b Ha Hab _. apply run_lit_none.
    by eapply no_later_privmsg.
Qed.

(** Conversely, a match exhibits the shape of a chat post. *)
Lemma rmatch_privmsg_inv (line : string) caps :
  rmatch PRIVMSG_PATTERN line = Some caps ->
  exists user mid chan text rest,
    line = ":" +:+ user +:+ "!" +:+ mid +:+ "PRIVMSG #" +:+ chan +:+ " :"
             +:+ text +:+ rest /\
    caps = [user; text] /\
    user <> EmptyString /\ all_class Word user = true /\
    all_class Dot mid = true /\
    chan <> EmptyString /\ all_class Word chan = true /\
    text <> EmptyString /\ all_class Dot text = true.
Proof.
  unfold rmatch. intros H.
  apply run_sound in H as (s1 & rest & cs & -> & L & H).
  injection H as <-. unfold PRIVMSG_PATTERN in L. cbn [lang] in L.
  destruct L as (? & t1 & ? & cs1 & -> & -> & [-> ->] & L).
  destruct L as (user & t2 & ? & cs2 & -> & -> & (? & (Hu1 & Hu2 & ->) & ->) & L).
  destruct L as (? & t3 & ? & cs3 & -> & -> & [-> ->] & L).
  destruct L as (mid & t4 & ? & cs4 & -> & -> & [Hmid ->] & L).
  apply lang_lit in L as (t5 & -> & L). cbn [lang] in L.
  destruct L as (chan & t6 & ? & cs6 & -> & -> & (Hc1 & Hc2 & ->) & L).
  apply lang_lit in L as (text & -> & L). cbn [lang] in L.
  destruct L as (? & (Ht1 & Ht2 & ->) & ->).
  exists user, mid, chan, text, rest. split_and!; try done.
  by rewrite !sapp_assoc.
Qed.

End ParserFacts.

(** * Stripping, splitting and replacing *)

Module BatchFacts.
Import Py PyFacts.

#[local] Arguments String.append !s1 s2 : simpl nomatch.

Lemma lstrip_length (s : string) : String.length (lstrip s) <= String.length s.
Proof.
  induction s as [|c s IH]; simpl; [done |].
  destruct (is_space c); simpl; lia.
Qed.

Lemma rstrip_length (s : string) : String.length (rstrip s) <= String.length s.
Proof.
  induction s as [|c s IH]; simpl; [done |].
  destruct (is_space c && is_empty (rstrip s)); simpl; lia.
Qed.

Lemma lstrip_head (c : ascii) (s : string) :
  lstrip (String c s) = String c s -> is_space c = false.
Proof.
  simpl. destruct (is_space c); [| done].
  intros H. pose proof (lstrip_length s) as Hl.
  rewrite H in Hl. simpl in Hl. lia.
Qed.

Lemma strip_fixed (s : string) :
  strip s = s -> lstrip s = s /\ rstrip s = s.
Proof.
  unfold strip. intros H.
  assert (Hl : lstrip s = s).
  { destruct s as [|c s]; [done |].
    simpl in *. destruct (is_space c); [| done].
    pose proof (rstrip_length (lstrip s)) as H1.
    pose proof (lstrip_length s) as H2.
    rewrite H in H1. simpl in H1. lia. }
  by rewrite Hl in H.
Qed.

Lemma is_empty_app (a b : string) :
  is_empty b = false -> is_empty (a +:+ b) = false.
Proof. by destruct a. Qed.

Lemma rstrip_app (a b : string) :
  b <> EmptyString -> rstrip b = b -> rstrip (a +:+ b) = a +:+ b.
Proof.
  intros Hb Hr. induction a as [|c a IH]; simpl; [done |].
  rewrite IH, is_empty_app, andb_false_r; [done |].
  by destruct b.
Qed.

Lemma rstrip_app_blank (a t : string) :
  rstrip t = EmptyString -> rstrip (a +:+ t) = rstrip a.
Proof.
  intros Ht. induction a as [|c a IH]; simpl; [done |]. by rewrite IH.
Qed.

Lemma lstrip_app (a b : string) :
  a <> EmptyString -> lstrip a = a -> lstrip (a +:+ b) = a +:+ b.
Proof.
  destruct a as [|c a]; [done |]. intros _ H.
  apply lstrip_head in H. simpl. by rewrite H.
Qed.

(** The whole payload is stripped, then cut at every CRLF. *)
Lemma startswith_crlf_app (c : ascii) (l rest : string) :
  startswith CRLF (String c l) = false ->
  startswith CRLF (String c l +:+ CRLF +:+ rest) = false.
Proof.
  unfold CRLF. cbn [startswith String.append].
  destruct (Ascii.eqb CR c); cbn [andb]; [| done].
  destruct l as [|d l]; cbn [startswith String.append]; [done |].
  by destruct (Ascii.eqb LF d).
Qed.

Lemma partition_crlf (l rest : string) :
  contains CRLF l = false ->
  partition CRLF (l +:+ CRLF +:+ rest) = Some (l, rest).
Proof.
  induction l as [|c l IH]; intros H.
  - reflexivity.
  - cbn [contains] in H. apply orb_false_iff in H as [H1 H2].
    change (partition CRLF (String c l +:+ CRLF +:+ rest))
      with (if startswith CRLF (String c l +:+ CRLF +:+ rest)
            then Some (EmptyString, drop (String.length CRLF)
                                      (String c l +:+ CRLF +:+ rest))
            else match partition CRLF (l +:+ CRLF +:+ rest) with
                 | Some (a, b) => Some (String c a, b)
                 | None => None
                 end).
    by rewrite startswith_crlf_app, IH.
Qed.

Lemma partition_none (sep s : string) :
  contains sep s = false -> partition sep s = None.
Proof.
  induction s as [|c s IH]; intros H; [done |].
  cbn [contains] in H. apply orb_false_iff in H as [H1 H2].
  cbn [partition]. by rewrite H1, IH.
Qed.

Lemma split_rounds_one (n : nat) (sep s : string) :
  contains sep s = false -> split_rounds n sep s = [s].
Proof. intros H. destruct n; simpl; [done |]. by rewrite partition_none. Qed.

Lemma split_one (s : string) :
  contains CRLF s = false -> split CRLF s = [s].
Proof. apply split_rounds_one. Qed.

Lemma split_two (l1 l2 : string) :
  contains CRLF l1 = false -> contains CRLF l2 = false ->
  split CRLF (l1 +:+ CRLF +:+ l2) = [l1; l2].
Proof.
  intros H1 H2. unfold split.
  rewrite length_sapp. replace (String.length l1 + _)
    with (S (String.length l1 + String.length (String LF l2)))
    by (simpl; lia).
  cbn [split_rounds]. by rewrite partition_crlf, split_rounds_one.
Qed.

(** What [response.strip()] leaves of two stripped lines joined by CRLF. *)
Lemma strip_two_lines (l1 l2 : string) :
  strip l1 = l1 -> strip l2 = l2 ->
  strip (l1 +:+ CRLF +:+ l2) =
    match l1, l2 with
    | EmptyString, _ => l2
    | _, EmptyString => l1
    | _, _ => l1 +:+ CRLF +:+ l2
    end.
Proof.
  intros [Hl1 Hr1]%strip_fixed [Hl2 Hr2]%strip_fixed. unfold strip.
  destruct l1 as [|c1 l1].
  - change (lstrip (EmptyString +:+ CRLF +:+ l2)) with (lstrip l2).
    by rewrite Hl2.
  - rewrite lstrip_app by done.
    destruct l2 as [|c2 l2].
    + by rewrite rstrip_app_blank.
    + rewrite <- sapp_assoc. by rewrite rstrip_app.
Qed.

(** Whitespace after the payload, such as the terminator of its last
    line, is removed by [strip]. *)
Lemma lstrip_app_cases (s t : string) :
  lstrip (s +:+ t) = if is_empty (lstrip s) then lstrip t else lstrip s +:+ t.
Proof.
  induction s as [|c s IH]; simpl; [done |].
  by destruct (is_space c).
Qed.

Lemma strip_app_blank (s t : string) :
  lstrip t = EmptyString -> rstrip t = EmptyString ->
  strip (s +:+ t) = strip s.
Proof.
  intros Hl Hr. unfold strip. rewrite lstrip_app_cases.
  destruct (lstrip s) as [|c s'] eqn:Hs; simpl.
  - by rewrite Hl.
  - change (String c (s' +:+ t)) with (String c s' +:+ t).
    by rewrite rstrip_app_blank.
Qed.

(** The replacement on a probe whose token does not contain [PING]. *)
Lemma replace_head (old new tok : string) :
  old <> EmptyString ->
  contains old tok = false ->
  replace old new (old +:+ tok) = new +:+ tok.
Proof.
  intros Ho Ht. unfold replace.
  destruct (String.length (old +:+ tok)) as [|n] eqn:Hn.
  { destruct old; simpl in *; done. }
  cbn [replace_rounds].
  assert (partition old (old +:+ tok) = Some (EmptyString, tok)) as ->.
  { destruct old as [|c old]; [done |].
    change (String c old +:+ tok) with (String c (old +:+ tok)).
    cbn [partition].
    change (String c (old +:+ tok)) with (String c old +:+ tok).
    by rewrite startswith_app, drop_app. }
  destruct n; simpl; [done |]. by rewrite partition_none.
Qed.

End BatchFacts.

Import PyFacts ReFacts ParserFacts.

(** * The parser *)

Lemma parse_privmsg (user mid chan text : string) :
  user <> EmptyString -> Re.all_class Re.Word user = true ->
  Re.all_class Re.Dot mid = true ->
  chan <> EmptyString -> Re.all_class Re.Word chan = true ->
  text <> EmptyString -> Re.all_class Re.Dot text = true ->
  Py.contains "PRIVMSG #" text = false ->
  _parse_irc_message
    (":" +:+ user +:+ "!" +:+ mid +:+ "PRIVMSG #" +:+ chan +:+ " :" +:+ text)
  = Some (user +:+ ": " +:+ Py.strip text).
Proof.
  intros. unfold _parse_irc_message.
  rewrite rmatch_privmsg by done.
  replace (Py.contains "PRIVMSG" _) with true; [done |].
  symmetry. do 4 apply contains_app_r. reflexivity.
Qed.

Lemma parse_inv (line m : string) :
  _parse_irc_message line = Some m ->
  exists user mid chan text rest,
    line = ":" +:+ user +:+ "!" +:+ mid +:+ "PRIVMSG #" +:+ chan +:+ " :"
             +:+ text +:+ rest /\
    m = user +:+ ": " +:+ Py.strip text /\
    user <> EmptyString /\ Re.all_class Re.Word user = true /\
    Re.all_class Re.Dot mid = true /\
    chan <> EmptyString /\ Re.all_class Re.Word chan = true /\
    text <> EmptyString /\ Re.all_class Re.Dot text = true.
Proof.
  unfold _parse_irc_message. intros H.
  destruct (Py.contains "PRIVMSG" line); [| done].
  destruct (Re.rmatch PRIVMSG_PATTERN line) as [caps|] eqn:Hm; [| done].
  apply rmatch_privmsg_inv in Hm
    as (user & mid & chan & text & rest & -> & -> & Hrest).
  injection H as <-. by exists user, mid, chan, text, rest.
Qed.

(** C1 (as amended). A line [:<user>!<mid>PRIVMSG #<chan> :<text>] whose
    user and channel are non-empty runs of word characters, whose middle
    part and text hold no line feed, and whose non-empty text does not
    itself contain [PRIVMSG #], is parsed into [<user>: <text>] with the
    text stripped of surrounding whitespace, whatever channel was joined;
    conversely every line the parser accepts has that shape, so every
    other line yields nothing.  The parser is a total function: it never
    raises. *)
Theorem C1_parse_chat_post (user mid chan text : string) :
  user <> EmptyString -> Re.all_class Re.Word user = true ->
  Re.all_class Re.Dot mid = true ->
  chan <> EmptyString -> Re.all_class Re.Word chan = true ->
  text <> EmptyString -> Re.all_class Re.Dot text = true ->
  Py.contains "PRIVMSG #" text = false ->
  _parse_irc_message
    (":" +:+ user +:+ "!" +:+ mid +:+ "PRIVMSG #" +:+ chan +:+ " :" +:+ text)
  = Some (user +:+ ": " +:+ Py.strip text)
  /\
  (forall line m,
     _parse_irc_message line = Some m ->
     exists u md ch tx rest,
       line = ":" +:+ u +:+ "!" +:+ md +:+ "PRIVMSG #" +:+ ch +:+ " :"
                +:+ tx +:+ rest /\
       m = u +:+ ": " +:+ Py.strip tx /\
       u <> EmptyString /\ Re.all_class Re.Word u = true /\
       Re.all_class Re.Dot md = true /\
       ch <> EmptyString /\ Re.all_class Re.Word ch = true /\
       tx <> EmptyString /\ Re.all_class Re.Dot tx = true).
Proof.
  intros. split; [by apply parse_privmsg | apply parse_inv].
Qed.

Lemma C1_parse_chat_post_witness :
  ("alice" <> EmptyString /\ Re.all_class Re.Word "alice" = true /\
   Re.all_class Re.Dot "alice@alice.tmi.twitch.tv " = true /\
   "bobstream" <> EmptyString /\ Re.all_class Re.Word "bobstream" = true /\
   "hello world" <> EmptyString /\ Re.all_class Re.Dot "hello world" = true /\
   Py.contains "PRIVMSG #" "hello world" = false) /\
  _parse_irc_message
    (":" +:+ "alice" +:+ "!" +:+ "alice@alice.tmi.twitch.tv " +:+ "PRIVMSG #"
       +:+ "bobstream" +:+ " :" +:+ "hello world")
  = Some ("alice" +:+ ": " +:+ Py.strip "hello world").
Proof.
  split; [split_and!; (reflexivity || discriminate) |].
  apply (C1_parse_chat_post "alice" "alice@alice.tmi.twitch.tv " "bobstream"
           "hello world"); (reflexivity || discriminate).
Defined.

(** C1 as stated fails: a post addressed to another channel than the one
    joined is parsed all the same, and the text is not kept verbatim
    (surrounding whitespace is removed). *)
Lemma C1_counterexample :
  _channel bob = "bobstream" /\
  _parse_irc_message ":alice!alice@alice.tmi.twitch.tv PRIVMSG #otherchannel :hello"
  = Some "alice: hello" /\
  _parse_irc_message ":alice!alice@alice.tmi.twitch.tv PRIVMSG #bobstream :  hello  "
  = Some "alice: hello".
Proof. split_and!; vm_compute; reflexivity. Qed.

(** * The chat-poll loop *)

Lemma parse_truthy (line m : string) :
  _parse_irc_message line = Some m -> Py.truthy m = true.
Proof.
  intros H. apply parse_inv in H as (u & ? & ? & ? & ? & _ & -> & Hu & _).
  by destruct u.
Qed.

Lemma parse_not_probe (line m : string) :
  _parse_irc_message line = Some m ->
  Py.is_empty line = false /\ Py.startswith "PING" line = false.
Proof.
  intros H. by apply parse_inv in H as (? & ? & ? & ? & ? & -> & _).
Qed.

(** A chat post on a connected relay: one debug line, one frame. *)
Lemma process_line_chat E (line msg : string) self w h :
  _parse_irc_message line = Some msg ->
  _websocket self = Some h ->
  let tr := Log DEBUG ("Received chat: " +:+ msg) :: trace w in
  is_connected_at E tr self = true ->
  fails E tr (RelaySend h (text_input_frame msg)) = None ->
  process_line E line self w
  = (Ret tt, self,
     World (Log INFO ("Sent chat message to VTuber: " +:+ msg)
              :: Call (RelaySend h (text_input_frame msg)) None :: tr)
       (heap w)).
Proof.
  intros Hp Hh tr Hc Hs. subst tr. unfold process_line.
  destruct (parse_not_probe _ _ Hp) as [-> ->].
  rewrite Hp, (parse_truthy _ _ Hp).
  unfold _handle_chat_message, _send_to_proxy. unfold_m. simpl.
  rewrite Hc. simpl. rewrite Hh. simpl. by rewrite Hs.
Qed.

(** A probe line: one write on the chat socket, nothing parsed. *)
Lemma process_line_ping E (line : string) self w h :
  Py.startswith "PING" line = true ->
  _irc_socket self = Some h ->
  process_line E line self w
  = call E (IrcSend h (pong_message line +:+ Py.CRLF)) self w.
Proof.
  intros Hp Hh. unfold process_line.
  destruct line as [|c line]; [done |]. simpl Py.is_empty. cbv iota.
  rewrite Hp. unfold mbind, M_bind, get_self. simpl. by rewrite Hh.
Qed.

(** C2. The line [:alice!alice@alice.tmi.twitch.tv PRIVMSG #bobstream
    :hello world] followed by CRLF, read on a connected relay whose write
    succeeds, is parsed into [alice: hello world] and exactly one frame is
    written to the relay; the frame decodes to the object with members
    [type = text-input] and [text = alice: hello world]. *)
Theorem C2_alice_hello_world E self w h :
  _channel self = "bobstream" ->
  _websocket self = Some h ->
  let tr := Log DEBUG "Received chat: alice: hello world" :: trace w in
  let frame := text_input_frame "alice: hello world" in
  is_connected_at E tr self = true ->
  fails E tr (RelaySend h frame) = None ->
  let input :=
    ":alice!alice@alice.tmi.twitch.tv PRIVMSG #bobstream :hello world"
      +:+ Py.CRLF in
  _parse_irc_message input = Some "alice: hello world" /\
  frame = "{" +:+ quoted "type" +:+ ": " +:+ quoted "text-input" +:+ ", "
            +:+ quoted "text" +:+ ": " +:+ quoted "alice: hello world" +:+ "}" /\
  Reader.loads frame
  = Some [("type", "text-input"); ("text", "alice: hello world")] /\
  process_response E input self w
  = (Ret tt, self,
     World (Log INFO "Sent chat message to VTuber: alice: hello world"
              :: Call (RelaySend h frame) None :: tr) (heap w)) /\
  filter (fun ev => is_send ev = true)
    (trace (process_response E input self w).2)
  = Call (RelaySend h frame) None
      :: filter (fun ev => is_send ev = true) (trace w).
Proof.
  intros _ Hh tr frame Hc Hs input.
  assert (Hrun : process_response E input self w
    = (Ret tt, self,
       World (Log INFO "Sent chat message to VTuber: alice: hello world"
                :: Call (RelaySend h frame) None :: tr) (heap w))).
  { unfold process_response.
    replace (Py.split Py.CRLF (Py.strip input))
      with [":alice!alice@alice.tmi.twitch.tv PRIVMSG #bobstream :hello world"]
      by (vm_compute; reflexivity).
    cbn [for_each]. unfold mbind at 1, M_bind.
    erewrite process_line_chat; [reflexivity | by vm_compute | done..]. }
  split_and!; [by vm_compute | by vm_compute | by vm_compute | done |].
  rewrite Hrun. reflexivity.
Qed.

Lemma C2_alice_hello_world_witness :
  (_channel bob_live = "bobstream" /\
   _websocket bob_live = Some 0 /\
   is_connected_at calm
     (Log DEBUG "Received chat: alice: hello world" :: trace nothing_yet)
     bob_live = true /\
   fails calm
     (Log DEBUG "Received chat: alice: hello world" :: trace nothing_yet)
     (RelaySend 0 (text_input_frame "alice: hello world")) = None) /\
  process_response calm
    (":alice!alice@alice.tmi.twitch.tv PRIVMSG #bobstream :hello world"
       +:+ Py.CRLF) bob_live nothing_yet
  = (Ret tt, bob_live,
     World [Log INFO "Sent chat message to VTuber: alice: hello world";
            Call (RelaySend 0 (text_input_frame "alice: hello world")) None;
            Log DEBUG "Received chat: alice: hello world"] ∅).
Proof.
  split; [split_and!; reflexivity |].
  apply (C2_alice_hello_world calm bob_live nothing_yet 0); reflexivity.
Defined.

Import PyFacts ReFacts ParserFacts BatchFacts.

(** On a probe whose token does not itself contain [PING], the reply
    echoes the token. *)
Lemma pong_message_echo (token : string) :
  Py.contains "PING" token = false ->
  pong_message ("PING" +:+ token) = "PONG" +:+ token.
Proof. intros H. unfold pong_message. by rewrite replace_head. Qed.

(** C3 (evaluated at the failing input). The probe [PING :PING] is
    answered by [PONG :PONG]: the token is rewritten, not echoed. *)
Theorem C3_probe_token_rewritten :
  process_line calm "PING :PING" bob_live nothing_yet
  = (Ret tt, bob_live,
     World [Call (IrcSend 2 ("PONG :PONG" +:+ Py.CRLF)) None] ∅) /\
  "PONG :PONG" +:+ Py.CRLF <> "PONG :PING" +:+ Py.CRLF.
Proof. split; [by vm_compute | discriminate]. Qed.

Lemma bind_skip (m : M unit) self w :
  (m;; mret tt) self w = m self w.
Proof.
  unfold mbind, M_bind, mret, M_ret.
  by destruct (m self w) as [[[[]|e] s'] w'].
Qed.

Lemma process_line_empty E self w :
  process_line E EmptyString self w = (Ret tt, self, w).
Proof. reflexivity. Qed.

(** One read holding two lines: both are processed, in order. *)
Lemma process_response_two_lines E (l1 l2 : string) self w :
  Py.contains Py.CRLF l1 = false -> Py.contains Py.CRLF l2 = false ->
  Py.strip l1 = l1 -> Py.strip l2 = l2 ->
  process_response E (l1 +:+ Py.CRLF +:+ l2) self w
  = (process_line E l1;; process_line E l2) self w.
Proof.
  intros Hc1 Hc2 Hs1 Hs2. unfold process_response.
  rewrite strip_two_lines by done.
  destruct l1 as [|c1 l1].
  - rewrite split_one by done. cbn [for_each]. rewrite bind_skip.
    unfold mbind, M_bind. by rewrite process_line_empty.
  - destruct l2 as [|c2 l2].
    + rewrite split_one by done. cbn [for_each]. rewrite bind_skip.
      unfold mbind, M_bind.
      destruct (process_line E (String c1 l1) self w) as [[[[]|e] s'] w'];
        by rewrite ?process_line_empty.
    + rewrite split_two by done. cbn [for_each].
      unfold mbind at 1 3, M_bind.
      destruct (process_line E (String c1 l1) self w) as [[[[]|e] s'] w'];
        [apply bind_skip | done].
Qed.

(** The terminator after the last line of a payload changes nothing. *)
Lemma process_response_terminated E (payload : string) self w :
  process_response E (payload +:+ Py.CRLF) self w
  = process_response E payload self w.
Proof. unfold process_response. by rewrite strip_app_blank. Qed.

(** C4. One read whose payload is two lines joined by CRLF (lines
    without an inner CRLF and without surrounding whitespace; an empty
    segment is skipped), with or without a terminator after the second
    line, is processed as the first line followed by the second.  In
    particular a probe and a chat post in one read, in either order, with
    a working chat socket and a connected relay, give exactly one reply
    on the chat socket and exactly one frame on the relay. *)
Theorem C4_two_lines_in_one_read E (l1 l2 : string) :
  Py.contains Py.CRLF l1 = false -> Py.contains Py.CRLF l2 = false ->
  Py.strip l1 = l1 -> Py.strip l2 = l2 ->
  (forall self w,
     process_response E (l1 +:+ Py.CRLF +:+ l2) self w
     = (process_line E l1;; process_line E l2) self w) /\
  (forall self w,
     process_response E ((l1 +:+ Py.CRLF +:+ l2) +:+ Py.CRLF) self w
     = (process_line E l1;; process_line E l2) self w) /\
  (forall self w hi hr msg,
     Py.startswith "PING" l1 = true ->
     _parse_irc_message l2 = Some msg ->
     _irc_socket self = Some hi -> _websocket self = Some hr ->
     let pong := IrcSend hi (pong_message l1 +:+ Py.CRLF) in
     let frame := RelaySend hr (text_input_frame msg) in
     let tr := Log DEBUG ("Received chat: " +:+ msg)
                 :: Call pong None :: trace w in
     fails E (trace w) pong = None ->
     is_connected_at E tr self = true ->
     fails E tr frame = None ->
     process_response E (l1 +:+ Py.CRLF +:+ l2) self w
     = (Ret tt, self,
        World (Log INFO ("Sent chat message to VTuber: " +:+ msg)
                 :: Call frame None :: tr) (heap w))) /\
  (forall self w hi hr msg,
     _parse_irc_message l1 = Some msg ->
     Py.startswith "PING" l2 = true ->
     _irc_socket self = Some hi -> _websocket self = Some hr ->
     let pong := IrcSend hi (pong_message l2 +:+ Py.CRLF) in
     let frame := RelaySend hr (text_input_frame msg) in
     let tr := Log DEBUG ("Received chat: " +:+ msg) :: trace w in
     let tr' := Log INFO ("Sent chat message to VTuber: " +:+ msg)
                  :: Call frame None :: tr in
     is_connected_at E tr self = true ->
     fails E tr frame = None ->
     fails E tr' pong = None ->
     process_response E (l1 +:+ Py.CRLF +:+ l2) self w
     = (Ret tt, self, World (Call pong None :: tr') (heap w))).
Proof.
  intros Hc1 Hc2 Hs1 Hs2. split_and!.
  - intros. by apply process_response_two_lines.
  - intros. rewrite process_response_terminated.
    by apply process_response_two_lines.
  - intros self w hi hr msg Hping Hmsg Hi Hr pong frame tr Hpong Hconn Hsend.
    rewrite process_response_two_lines by done.
    unfold mbind, M_bind. rewrite (process_line_ping E l1 self w hi) by done.
    unfold call. fold pong. rewrite Hpong.
    by rewrite (process_line_chat E l2 msg self _ hr).
  - intros self w hi hr msg Hmsg Hping Hi Hr pong frame tr tr' Hconn Hsend Hpong.
    rewrite process_response_two_lines by done.
    unfold mbind, M_bind. rewrite (process_line_chat E l1 msg self w hr) by done.
    rewrite (process_line_ping E l2 self _ hi) by done.
    unfold call. cbn [trace heap]. fold pong frame tr tr'. by rewrite Hpong.
Qed.

Lemma C4_two_lines_in_one_read_witness :
  (Py.contains Py.CRLF "PING :tmi.twitch.tv" = false /\
   Py.contains Py.CRLF
     ":alice!alice@alice.tmi.twitch.tv PRIVMSG #bobstream :hello world" = false /\
   Py.strip "PING :tmi.twitch.tv" = "PING :tmi.twitch.tv" /\
   Py.strip ":alice!alice@alice.tmi.twitch.tv PRIVMSG #bobstream :hello world"
   = ":alice!alice@alice.tmi.twitch.tv PRIVMSG #bobstream :hello world") /\
  process_response calm
    ("PING :tmi.twitch.tv" +:+ Py.CRLF +:+
     ":alice!alice@alice.tmi.twitch.tv PRIVMSG #bobstream :hello world")
    bob_live nothing_yet
  = (Ret tt, bob_live,
     World [Log INFO "Sent chat message to VTuber: alice: hello world";
            Call (RelaySend 0 (text_input_frame "alice: hello world")) None;
            Log DEBUG "Received chat: alice: hello world";
            Call (IrcSend 2 ("PONG :tmi.twitch.tv" +:+ Py.CRLF)) None] ∅).
Proof.
  split; [by vm_compute |].
  destruct (C4_two_lines_in_one_read calm "PING :tmi.twitch.tv"
    ":alice!alice@alice.tmi.twitch.tv PRIVMSG #bobstream :hello world")
    as (_ & _ & H & _); [by vm_compute..|].
  apply (H bob_live nothing_yet 2 0 "alice: hello world"); by vm_compute.
Defined.

(** * Connection life cycle *)

Lemma is_connected_flag_off E tr self :
  _connected self = false -> is_connected_at E tr self = false.
Proof.
  intros H. unfold is_connected_at, is_connected_body. rewrite H.
  destruct (py_hasattr _) as [[]|]; [done | | done].
  by destruct (py_hasattr _) as [[]|].
Qed.

(** What one shutdown does, from any state and in any environment. *)
Lemma disconnect_spec E self w :
  exists s1 w1,
    disconnect E self w = (Ret tt, s1, w1) /\
    exists evs,
    trace w1 = evs ++ trace w /\
    heap w1 = heap w /\
    _running s1 = false /\ _connected s1 = false /\
    released self evs /\
    Forall harmless evs /\
    _websocket s1 = _websocket self /\
    (forall h, _irc_socket s1 = Some h ->
       _irc_socket self = Some h /\ exists f, Call (IrcClose h) (Some f) ∈ evs) /\
    _channel s1 = _channel self.
Proof.
  unfold disconnect, released. unfold_m. simpl.
  destruct (_irc_socket self) as [hi|] eqn:Hi;
    destruct (_websocket self) as [hr|] eqn:Hr; simpl;
    repeat (match goal with
            | |- context [fails E ?t ?a] => destruct (fails E t a) eqn:?; simpl
            end);
    do 2 eexists; (split; [reflexivity |]); simpl;
    exists_prefix;
    split_and!; try done;
    try (intros h H; simpl in H; rewrite ?Hi, ?Hr in H; simplify_eq;
         try (split; [done |]); eexists; find_event);
    repeat constructor.
Qed.

(** C7. Shutdown twice in a row, from any state (never connected
    included) and whatever the two [close()] calls do: no exception
    escapes either call, and after each call the running and connected
    flags are off, the relay is seen as not connected, and every socket
    held when the call began has had [close()] called on it. *)
Theorem C7_shutdown_twice E self w :
  exists s1 w1 s2 w2,
    disconnect E self w = (Ret tt, s1, w1) /\
    disconnect E s1 w1 = (Ret tt, s2, w2) /\
    Disconnected E s1 w1 /\ Disconnected E s2 w2 /\
    exists evs1 evs2,
      trace w1 = evs1 ++ trace w /\ trace w2 = evs2 ++ trace w1 /\
      released self evs1 /\ released s1 evs2.
Proof.
  destruct (disconnect_spec E self w)
    as (s1 & w1 & H1 & evs1 & Ht1 & _ & Hr1 & Hc1 & Hrel1 & _).
  destruct (disconnect_spec E s1 w1)
    as (s2 & w2 & H2 & evs2 & Ht2 & _ & Hr2 & Hc2 & Hrel2 & _).
  exists s1, w1, s2, w2. unfold Disconnected.
  split_and!; try done; try by apply is_connected_flag_off.
  by exists evs1, evs2.
Qed.

(** The first phase of [run] when the relay refuses the connection. *)
Lemma run_relay_refused E gather self w f :
  fails E (trace w) (RelayConnect PROXY_URL) = Some f ->
  run E gather self w
  = try_finally (fun s w' => (Ret tt, s, w')) (disconnect E)
      (set_running true self)
      (World (Log ERROR "Failed to connect to proxy, exiting"
                :: Log ERROR ("Failed to connect to proxy: " +:+ failure_msg f)
                :: Call (RelayConnect PROXY_URL) (Some f) :: trace w)
         (heap w)).
Proof.
  intros H. unfold run, try_finally, try_catch, connect. unfold_m. simpl.
  by rewrite H.
Qed.

(** C5. When the relay connection attempt of [run] fails, [run] returns
    without raising, no chat connection is attempted, nothing is written
    on any socket, no chat socket is acquired, and both flags are off. *)
Theorem C5_relay_failure_stops_run E gather self w f :
  fails E (trace w) (RelayConnect PROXY_URL) = Some f ->
  exists self' w',
    run E gather self w = (Ret tt, self', w') /\
    exists evs,
      trace w' = evs ++ trace w /\
      Forall harmless evs /\
      (forall h, _irc_socket self' = Some h -> _irc_socket self = Some h) /\
      _running self' = false /\ _connected self' = false.
Proof.
  intros H. rewrite (run_relay_refused _ _ _ _ _ H). unfold try_finally.
  match goal with
  | |- context [disconnect E ?s ?w0] =>
      destruct (disconnect_spec E s w0)
        as (s1 & w1 & Hd & evs & Ht & _ & Hr & Hc & _ & Hh & _ & Hirc & _)
  end.
  rewrite Hd. exists s1, w1. split; [done |].
  eexists (evs ++ [_; _; _]). split_and!; try done.
  - rewrite Ht. simpl. by rewrite <- (assoc_L (++)).
  - apply Forall_app. split; [done |]. repeat constructor.
  - intros h Hs. by apply Hirc in Hs as [Hs _].
Qed.

Lemma C5_relay_failure_stops_run_witness :
  fails relay_down (trace nothing_yet) (RelayConnect PROXY_URL)
  = Some (Error "connection refused") /\
  exists self' w',
    run relay_down (mret tt) bob nothing_yet = (Ret tt, self', w') /\
    exists evs,
      trace w' = evs ++ trace nothing_yet /\
      Forall harmless evs /\
      (forall h, _irc_socket self' = Some h -> _irc_socket bob = Some h) /\
      _running self' = false /\ _connected self' = false.
Proof.
  split; [reflexivity |].
  apply (C5_relay_failure_stops_run relay_down (mret tt) bob nothing_yet
           (Error "connection refused")).
  reflexivity.
Defined.

(** What the chat connection attempt does, from any state. *)
Lemma connect_irc_spec E self w :
  exists b s' w',
    _connect_to_twitch_irc E self w = (Ret b, s', w') /\
    exists evs,
      trace w' = evs ++ trace w /\
      _websocket s' = _websocket self /\
      _channel s' = _channel self /\
      (fails E (trace w) (IrcCreate IRC_URL) = None ->
       _irc_socket s' = Some (length (trace w))).
Proof.
  unfold _connect_to_twitch_irc. unfold_m. simpl.
  repeat (match goal with
          | |- context [fails E ?t ?a] => destruct (fails E t a) eqn:?; simpl
          end);
    do 3 eexists; (split; [reflexivity |]); simpl;
    exists_prefix; split_and!; done.
Qed.

(** C6. When the relay connection succeeds and the chat connection
    attempt that follows fails, [run] returns without raising, [close()]
    has been called on the relay connection (and on the chat socket, if
    it had been created) before [run] returns, and the state left behind
    is the disconnected one. *)
Theorem C6_chat_failure_closes_relay E gather self w :
  fails E (trace w) (RelayConnect PROXY_URL) = None ->
  let h := length (trace w) in
  let s1 := set_connected true (set_websocket (Some h) (set_running true self)) in
  let w1 := World (Log INFO ("Connected to proxy at " +:+ PROXY_URL)
                     :: Call (RelayConnect PROXY_URL) None :: trace w)
              (heap w) in
  (_connect_to_twitch_irc E s1 w1).1.1 = Ret false ->
  exists self' w',
    run E gather self w = (Ret tt, self', w') /\
    Disconnected E self' w' /\
    exists evs,
      trace w' = evs ++ trace w1 /\
      (exists o, Call (RelayClose h) o ∈ evs) /\
      (fails E (trace w1) (IrcCreate IRC_URL) = None ->
       exists o, Call (IrcClose (length (trace w1))) o ∈ evs).
Proof.
  intros Hc h s1 w1 Hirc.
  destruct (connect_irc_spec E s1 w1)
    as (b & s2 & w2 & Hi & evs2 & Ht2 & Hws2 & _ & Hs2).
  rewrite Hi in Hirc. simpl in Hirc. injection Hirc as ->.
  set (w2' := World (Log ERROR "Failed to connect to Twitch IRC, exiting"
                       :: trace w2) (heap w2)).
  destruct (disconnect_spec E s2 w2')
    as (s3 & w3 & Hd3 & evs3 & Ht3 & _ & _ & _ & Hrel3 & _ & Hws3 & _).
  destruct (disconnect_spec E s3 w3)
    as (s4 & w4 & Hd4 & evs4 & Ht4 & _ & Hr4 & Hc4 & _).
  exists s4, w4. split_and!.
  - unfold run, try_finally, try_catch, connect. unfold_m. simpl.
    rewrite Hc. simpl. subst h s1 w1. rewrite Hi. simpl.
    fold w2'. rewrite Hd3. by rewrite Hd4.
  - split_and!; try done. by apply is_connected_flag_off.
  - exists (evs4 ++ evs3 ++ [Log ERROR "Failed to connect to Twitch IRC, exiting"]
              ++ evs2).
    split_and!.
    + rewrite Ht4, Ht3. subst w2'. cbn [trace]. rewrite Ht2.
      by rewrite <- !(assoc_L (++)).
    + destruct Hrel3 as [_ Hrel]. destruct (Hrel h) as [o Ho].
      { by rewrite Hws2. }
      exists o. rewrite !elem_of_app. auto.
    + intros Hcreate. destruct Hrel3 as [Hrel _].
      destruct (Hrel (length (trace w1))) as [o Ho]; [by apply Hs2 |].
      exists o. rewrite !elem_of_app. auto.
Qed.

Lemma C6_chat_failure_closes_relay_witness :
  fails chat_down (trace nothing_yet) (RelayConnect PROXY_URL) = None /\
  exists self' w',
    run chat_down (mret tt) bob nothing_yet = (Ret tt, self', w') /\
    Disconnected chat_down self' w' /\
    exists evs,
      trace w'
      = evs ++ [Log INFO ("Connected to proxy at " +:+ PROXY_URL);
                Call (RelayConnect PROXY_URL) None] /\
      (exists o, Call (RelayClose 0) o ∈ evs) /\
      (fails chat_down
         [Log INFO ("Connected to proxy at " +:+ PROXY_URL);
          Call (RelayConnect PROXY_URL) None] (IrcCreate IRC_URL) = None ->
       exists o, Call (IrcClose 2) o ∈ evs).
Proof.
  split; [reflexivity |].
  apply (C6_chat_failure_closes_relay chat_down (mret tt) bob nothing_yet);
    reflexivity.
Defined.

(** * The stored channel *)

Lemma lstrip_char_head (x : ascii) (s : string) :
  Py.startswith (String x EmptyString) (Py.lstrip_char x s) = false.
Proof.
  induction s as [|c s IH]; simpl; [done |].
  destruct (Ascii.eqb c x) eqn:Hc; [done |].
  simpl. rewrite Ascii.eqb_sym, Hc. done.
Qed.

Lemma keeps_channel_connect E url : keeps_channel (connect E url).
Proof.
  intros self w. unfold connect. unfold_m. simpl. by case_env E.
Qed.

Lemma keeps_channel_disconnect E : keeps_channel (disconnect E).
Proof.
  intros self w.
  destruct (disconnect_spec E self w)
    as (s1 & w1 & Hd & evs & _ & _ & _ & _ & _ & _ & _ & _ & Hch).
  by rewrite Hd.
Qed.

Lemma keeps_channel_connect_irc E : keeps_channel (_connect_to_twitch_irc E).
Proof.
  intros self w.
  destruct (connect_irc_spec E self w)
    as (b & s1 & w1 & Hd & evs & _ & _ & Hch & _).
  by rewrite Hd.
Qed.

Lemma keeps_channel_send_message E text : keeps_channel (send_message E text).
Proof.
  intros self w. unfold send_message. unfold_m. simpl.
  destruct (_irc_socket self); [| done].
  destruct (Py.truthy (_oauth_token self)); [| done].
  simpl. by case_env E.
Qed.

Lemma keeps_channel_send_to_proxy E text : keeps_channel (_send_to_proxy E text).
Proof.
  intros self w. unfold _send_to_proxy. unfold_m. simpl.
  destruct (is_connected_at E (trace w) self); [| done]. simpl.
  destruct (_websocket self); simpl; [| done]. by case_env E.
Qed.

Lemma keeps_channel_register h : keeps_channel (register_message_handler h).
Proof. by intros self w. Qed.

(** C8. The channel stored by the constructor never begins with [#];
    the [#] is put back when the JOIN command and the outbound PRIVMSG
    command are built, each of which holds [#] followed by the stored
    channel; and no method changes the stored channel. *)
Theorem C8_channel_stored_without_mark E channel oauth_token username p :
  __init__ E channel oauth_token username = inr p ->
  _channel p = Py.lstrip_char "#" (Py.lower channel) /\
  Py.startswith "#" (_channel p) = false /\
  (forall self w self' w',
     _channel self = _channel p ->
     _connect_to_twitch_irc E self w = (Ret true, self', w') ->
     exists h tr,
       trace w'
       = Log INFO ("Connected to Twitch IRC for channel #" +:+ _channel p)
           :: Call (IrcSend h ("JOIN #" +:+ _channel p +:+ Py.CRLF)) None
           :: tr) /\
  (forall self w text self' w',
     _channel self = _channel p ->
     send_message E text self w = (Ret true, self', w') ->
     exists h,
       trace w'
       = Log INFO ("Sent message to Twitch chat: " +:+ text)
           :: Call (IrcSend h ("PRIVMSG #" +:+ _channel p +:+ " :" +:+ text
                                 +:+ Py.CRLF)) None
           :: trace w) /\
  (forall url, keeps_channel (connect E url)) /\
  keeps_channel (disconnect E) /\
  keeps_channel (_connect_to_twitch_irc E) /\
  (forall text, keeps_channel (send_message E text)) /\
  (forall text, keeps_channel (_send_to_proxy E text)) /\
  (forall h, keeps_channel (register_message_handler h)).
Proof.
  intros Hinit. unfold __init__ in Hinit.
  destruct (negb (WEBSOCKET_CLIENT_AVAILABLE E)); [done |].
  injection Hinit as <-. cbn [_channel].
  split_and!.
  - done.
  - apply lstrip_char_head.
  - intros self w self' w' Hch. unfold _connect_to_twitch_irc. unfold_m. simpl.
    case_env E; intros Heq; simplify_eq; simpl.
    unfold join_command. rewrite Hch. by eexists _, _.
  - intros self w text self' w' Hch. unfold send_message. unfold_m. simpl.
    destruct (_irc_socket self) as [h|]; [| done].
    destruct (Py.truthy (_oauth_token self)); [| done]. simpl.
    case_env E; intros Heq; simplify_eq; simpl.
    unfold privmsg_command. rewrite Hch. by exists h.
  - apply keeps_channel_connect.
  - apply keeps_channel_disconnect.
  - apply keeps_channel_connect_irc.
  - apply keeps_channel_send_message.
  - apply keeps_channel_send_to_proxy.
  - apply keeps_channel_register.
Qed.

Lemma C8_channel_stored_without_mark_witness :
  __init__ calm "##BobStream" EmptyString EmptyString = inr bob /\
  _channel bob = "bobstream" /\
  Py.startswith "#" (_channel bob) = false.
Proof.
  split; [reflexivity |].
  destruct (C8_channel_stored_without_mark calm "##BobStream" EmptyString
              EmptyString bob) as (H1 & H2 & _); [reflexivity |].
  split; [exact H1 | exact H2].
Defined.

(** * The relay bridge *)

(** C9 (as amended). [is_connected] is a total function (it never
    raises).  It is true exactly when the connected flag is set, a
    connection handle exists, and either the connection object says it is
    open or it exposes neither a [closed] nor an [open] attribute (then
    the flag and the handle decide alone).  On a freshly built instance
    it is false, and while it is false [_send_to_proxy] writes no frame,
    logs the refusal, changes nothing and returns false. *)
Theorem C9_is_connected E tr self :
  (is_connected_at E tr self = true <->
   _connected self = true /\ is_Some (_websocket self) /\
   (reports_open E tr (_websocket self) = true \/
    exposes_no_state E tr (_websocket self) = true)) /\
  (forall channel oauth_token username p,
     __init__ E channel oauth_token username = inr p ->
     is_connected_at E tr p = false) /\
  (forall text w,
     is_connected_at E (trace w) self = false ->
     _send_to_proxy E text self w
     = (Ret false, self,
        World (Log ERROR "Cannot send message: Not connected to proxy"
                 :: trace w) (heap w))).
Proof.
  split_and!.
  - unfold is_connected_at, is_connected_body, reports_open, exposes_no_state,
      websocket_attr.
    destruct (_websocket self) as [h|]; simpl.
    + destruct (ws_attr E tr h "closed") as [|[]|];
        destruct (ws_attr E tr h "open") as [|[]|];
        destruct (_connected self); simpl;
        (split; [intros ?; split_and!; eauto | intros (? & ? & [?|?])]);
        done.
    + destruct (_connected self); simpl;
        (split; [done | intros (_ & [x Hx] & _); done]).
  - intros channel oauth_token username p Hinit.
    apply is_connected_flag_off. unfold __init__ in Hinit.
    destruct (negb _); [done |]. by injection Hinit as <-.
  - intros text w Hc. unfold _send_to_proxy. unfold_m. simpl. by rewrite Hc.
Qed.

Lemma C9_is_connected_witness :
  is_connected_at calm [] bob = false /\
  _send_to_proxy calm "alice: hello world" bob nothing_yet
  = (Ret false, bob,
     World [Log ERROR "Cannot send message: Not connected to proxy"] ∅).
Proof.
  destruct (C9_is_connected calm [] bob) as (_ & H1 & H2).
  split.
  - apply (H1 "#BobStream" EmptyString EmptyString). reflexivity.
  - apply (H2 "alice: hello world" nothing_yet). reflexivity.
Defined.

(** C9 as stated fails: with the flag set and a connection object that
    has neither [closed] nor [open], [is_connected] is true although the
    object reports no open state. *)
Lemma C9_counterexample :
  is_connected_at bare [] bob_live = true /\
  reports_open bare [] (_websocket bob_live) = false.
Proof. split; reflexivity. Qed.

(** The logging block never changes the decoded frame: whatever it
    does, the dictionary the message refers to is as it was. *)
Lemma log_received_keeps_frame l d self w :
  heap w !! l = Some d ->
  heap (log_received (Ref l) self w).2 !! l = Some d /\
  (log_received (Ref l) self w).1.2 = self.
Proof.
  intros Hl. unfold log_received, py_in, load, alloc, setitem, store, load.
  unfold_m. simpl. rewrite Hl. simpl.
  assert (Hfresh : fresh (dom (heap w)) <> l).
  { intros <-. apply (is_fresh (dom (heap w))).
    apply elem_of_dom. by rewrite Hl. }
  destruct (bool_decide (is_Some (d !! "audio"))); simpl; rewrite ?Hl; [| done].
  rewrite lookup_insert_ne, Hl by done. simpl.
  destruct (d !! "audio") as [a|]; simpl; [| by rewrite lookup_insert_ne].
  destruct (py_len a); simpl; [| by rewrite lookup_insert_ne].
  rewrite lookup_insert_eq. simpl. rewrite lookup_insert_eq. simpl.
  by rewrite !lookup_insert_ne.
Qed.

(** On a frame whose audio value has a length, the marker goes into a
    fresh copy and the handlers are given the decoded frame itself, whose
    dictionary is as [json.loads] built it. *)
Lemma receive_body_audio E self w h kvs a n :
  _websocket self = Some h ->
  fails E (trace w) (RelayRecv h) = None ->
  relay_frame E (trace w) = Some (JObj kvs) ->
  dict_of kvs !! "audio" = Some a ->
  py_len a = Some n ->
  let l := fresh (dom (heap w)) in
  let hp := <[l := dict_of kvs]> (heap w) in
  let shown := <["audio" := JStr (audio_marker n)]> (dict_of kvs) in
  let w' := World (LogFrame DEBUG RECEIVED (inr shown)
                     :: Call (RelayRecv h) None :: trace w)
              (<[fresh (dom hp) := shown]> hp) in
  receive_body E self w = handle_incoming_messages (Ref l) self w' /\
  heap w' !! l = Some (dict_of kvs).
Proof.
  intros Hh Hrecv Hframe Ha Hn l hp shown w'.
  assert (Hl : hp !! l = Some (dict_of kvs)) by apply lookup_insert_eq.
  assert (Hfresh : fresh (dom hp) <> l).
  { intros Heq. apply (is_fresh (dom hp)). rewrite Heq.
    apply elem_of_dom. by rewrite Hl. }
  split; [| subst w'; simpl; by rewrite lookup_insert_ne].
  unfold receive_body, relay_recv, loads, log_received, py_in, load, alloc,
    setitem, store, load.
  unfold_m. simpl. rewrite Hh. simpl. rewrite Hrecv, Hframe. simpl.
  fold l. fold hp.
  repeat (first [ rewrite Hl | rewrite Ha | rewrite Hn
                | rewrite lookup_insert_eq
                | rewrite lookup_insert_ne by done ]; simpl).
  rewrite insert_insert_eq. reflexivity.
Qed.

(** Dispatch calls every registered handler once, in registration
    order, each with the very same message, and never raises. *)
Lemma invoke_all_calls (hs : list handler) : forall i message self w,
  exists w',
    invoke_all i hs message self w = (Ret tt, self, w') /\
    omap invoked (trace w')
    = reverse ((fun j => (j, message)) <$> seq i (length hs))
        ++ omap invoked (trace w).
Proof.
  induction hs as [|h hs IH]; intros i message self w.
  - by exists w.
  - cbn [invoke_all]. unfold mbind, M_bind, invoke.
    destruct (h message (heap w)) as [hp [e|]].
    + unfold log, emit.
      destruct (IH (S i) message self
                  (World (Log ERROR ("Error in message handler: " +:+ failure_msg e)
                            :: Invoke i message (Some e) :: trace w) hp))
        as (w' & Hrun & Hcalls).
      exists w'. split; [done |]. rewrite Hcalls. cbn [length seq fmap list_fmap].
      rewrite reverse_cons, <- (assoc_L (++)). done.
    + destruct (IH (S i) message self
                  (World (Invoke i message None :: trace w) hp))
        as (w' & Hrun & Hcalls).
      exists w'. split; [done |]. rewrite Hcalls. cbn [length seq fmap list_fmap].
      rewrite reverse_cons, <- (assoc_L (++)). done.
Qed.

(** C10 (evaluated at the failing input). On the frame
    [{"type": "audio", "audio": null}] the length of the audio value
    cannot be taken: the logging block raises, the round logs the error
    and sleeps, and the registered handler is never called; on a frame
    whose audio is a text the handler is called with the decoded frame. *)
Theorem C10_null_audio_not_dispatched :
  let '(r, self', w') := receive_step null_audio bob_live nothing_yet in
  r = Ret Continue /\
  trace w'
  = [Sleep 1;
     Log ERROR "Error receiving message from proxy: object has no len()";
     Call (RelayRecv 0) None] /\
  filter (fun ev => is_invoke ev = true) (trace w') = [] /\
  filter (fun ev => is_invoke ev = true)
    (trace (receive_step with_audio bob_live nothing_yet).2)
  = [Invoke 0 (Ref 0) None].
Proof. vm_compute. split_and!; reflexivity. Qed.

(** * Further properties of the bridge *)

Import PyFacts ReFacts ParserFacts BatchFacts.

(** * The constructor *)

Module InitFacts.
Import Py.

#[local] Arguments String.append !s1 s2 : simpl nomatch.

Lemma lower_char_idem (c : ascii) : lower_char (lower_char c) = lower_char c.
Proof. destruct c as [[] [] [] [] [] [] [] []]; reflexivity. Qed.

Lemma lower_char_mark (c : ascii) :
  Ascii.eqb (lower_char c) "#" = Ascii.eqb c "#".
Proof. destruct c as [[] [] [] [] [] [] [] []]; reflexivity. Qed.

Lemma lower_idem (s : string) : lower (lower s) = lower s.
Proof.
  induction s as [|c s IH]; simpl; [done |].
  by rewrite lower_char_idem, IH.
Qed.

Lemma lower_lstrip_mark (s : string) :
  lower (lstrip_char "#" s) = lstrip_char "#" (lower s).
Proof.
  induction s as [|c s IH]; simpl; [done |].
  rewrite lower_char_mark. by destruct (Ascii.eqb c "#").
Qed.

Lemma lstrip_char_idem (x : ascii) (s : string) :
  lstrip_char x (lstrip_char x s) = lstrip_char x s.
Proof.
  induction s as [|c s IH]; simpl; [done |].
  destruct (Ascii.eqb c x) eqn:Hc; [done |]. simpl. by rewrite Hc.
Qed.

Lemma lstrip_char_mark (x : ascii) (s : string) :
  lstrip_char x (String x s) = lstrip_char x s.
Proof. simpl. by rewrite ascii_eqb_refl. Qed.

End InitFacts.

(** X1. The channel the constructor stores is in normal form: lowering
    it or stripping leading [#] marks from it changes nothing, so an
    instance built from the stored channel, or from the same channel
    written with one more leading [#], stores the same channel. *)
Theorem X1_stored_channel_normal_form E channel oauth_token username p :
  __init__ E channel oauth_token username = inr p ->
  Py.lower (_channel p) = _channel p /\
  Py.lstrip_char "#" (_channel p) = _channel p /\
  (forall token name,
     exists p', __init__ E (_channel p) token name = inr p' /\
                _channel p' = _channel p) /\
  (forall token name,
     exists p', __init__ E (String "#" channel) token name = inr p' /\
                _channel p' = _channel p).
Proof.
  unfold __init__. destruct (negb (WEBSOCKET_CLIENT_AVAILABLE E)); [done |].
  intros [= <-]. cbn [_channel].
  assert (H1 : Py.lower (Py.lstrip_char "#" (Py.lower channel))
               = Py.lstrip_char "#" (Py.lower channel)).
  { by rewrite InitFacts.lower_lstrip_mark, InitFacts.lower_idem. }
  split_and!.
  - done.
  - apply InitFacts.lstrip_char_idem.
  - intros token name. eexists. split; [reflexivity |]. cbn [_channel].
    by rewrite H1, InitFacts.lstrip_char_idem.
  - intros token name. eexists. split; [reflexivity |]. cbn [_channel].
    change (Py.lower (String "#" channel))
      with (String "#" (Py.lower channel)).
    apply InitFacts.lstrip_char_mark.
Qed.

Lemma X1_stored_channel_normal_form_witness :
  __init__ calm "##BobStream" EmptyString EmptyString = inr bob /\
  Py.lower (_channel bob) = _channel bob /\
  Py.lstrip_char "#" (_channel bob) = _channel bob.
Proof.
  split; [reflexivity |].
  destruct (X1_stored_channel_normal_form calm "##BobStream" EmptyString
              EmptyString bob) as (H1 & H2 & _); [reflexivity |].
  split; [exact H1 | exact H2].
Defined.

(** * The chat handshake *)

(** X2. The password line always carries the [oauth:] prefix exactly
    once: a bare token and the same token already prefixed give the same
    line, an empty token gives the anonymous login, and every line starts
    with [PASS oauth:] and ends with CRLF. *)
Theorem X2_pass_command_prefix (token : string) :
  Py.startswith "PASS oauth:" (pass_command token) = true /\
  (exists credential,
     pass_command token = "PASS oauth:" +:+ credential +:+ Py.CRLF) /\
  (token = EmptyString ->
   pass_command token = "PASS oauth:anonymous" +:+ Py.CRLF) /\
  (token <> EmptyString -> Py.startswith "oauth:" token = false ->
   pass_command token = "PASS oauth:" +:+ token +:+ Py.CRLF /\
   pass_command ("oauth:" +:+ token) = pass_command token).
Proof.
  assert (Hraw : forall t, t <> EmptyString -> Py.startswith "oauth:" t = false ->
            pass_command t = "PASS oauth:" +:+ t +:+ Py.CRLF).
  { intros t Ht Hp. unfold pass_command. rewrite Hp.
    destruct t; [done |]. reflexivity. }
  assert (Hpre : forall t, pass_command ("oauth:" +:+ t)
                           = "PASS oauth:" +:+ t +:+ Py.CRLF).
  { intros t. reflexivity. }
  assert (Hcases : exists credential,
            pass_command token = "PASS oauth:" +:+ credential +:+ Py.CRLF).
  { destruct (Py.is_empty token) eqn:He.
    - destruct token; [| done]. by exists "anonymous".
    - destruct (Py.startswith "oauth:" token) eqn:Hp.
      + apply startswith_inv in Hp as [t ->]. exists t. apply Hpre.
      + exists token. apply Hraw; [by intros -> | done]. }
  split_and!.
  - destruct Hcases as [cr ->]. reflexivity.
  - done.
  - by intros ->.
  - intros Ht Hp. split; [by apply Hraw |]. by rewrite Hpre, Hraw.
Qed.

Lemma X2_pass_command_prefix_witness :
  pass_command "abc123" = "PASS oauth:abc123" +:+ Py.CRLF /\
  pass_command ("oauth:" +:+ "abc123") = pass_command "abc123".
Proof.
  destruct (X2_pass_command_prefix "abc123") as (_ & _ & _ & H).
  apply H; [discriminate | reflexivity].
Defined.

(** X3. A chat connection attempt that succeeds has opened one socket
    and written on it exactly three lines, in the order PASS, NICK,
    JOIN; the new socket is stored and nothing else of the object
    changes. *)
Theorem X3_handshake_order E self w self' w' :
  _connect_to_twitch_irc E self w = (Ret true, self', w') ->
  let h := length (trace w) in
  self' = set_irc_socket (Some h) self /\
  heap w' = heap w /\
  trace w'
  = [Log INFO ("Connected to Twitch IRC for channel #" +:+ _channel self);
     Call (IrcSend h ("JOIN #" +:+ _channel self +:+ Py.CRLF)) None;
     Call (IrcSend h ("NICK " +:+ _username self +:+ Py.CRLF)) None;
     Call (IrcSend h (pass_command (_oauth_token self))) None;
     Call (IrcCreate IRC_URL) None] ++ trace w.
Proof.
  unfold _connect_to_twitch_irc. unfold_m. simpl.
  case_env E; intros Heq; simplify_eq; simpl. done.
Qed.

Lemma X3_handshake_order_witness :
  _connect_to_twitch_irc calm bob nothing_yet
  = (Ret true, set_irc_socket (Some 0) bob,
     World [Log INFO "Connected to Twitch IRC for channel #bobstream";
            Call (IrcSend 0 ("JOIN #bobstream" +:+ Py.CRLF)) None;
            Call (IrcSend 0 ("NICK justinfan12345" +:+ Py.CRLF)) None;
            Call (IrcSend 0 ("PASS oauth:anonymous" +:+ Py.CRLF)) None;
            Call (IrcCreate IRC_URL) None] ∅) /\
  trace (_connect_to_twitch_irc calm bob nothing_yet).2
  = [Log INFO ("Connected to Twitch IRC for channel #" +:+ _channel bob);
     Call (IrcSend 0 ("JOIN #" +:+ _channel bob +:+ Py.CRLF)) None;
     Call (IrcSend 0 ("NICK " +:+ _username bob +:+ Py.CRLF)) None;
     Call (IrcSend 0 (pass_command (_oauth_token bob))) None;
     Call (IrcCreate IRC_URL) None] ++ trace nothing_yet.
Proof.
  split; [reflexivity |].
  destruct (X3_handshake_order calm bob nothing_yet
              (set_irc_socket (Some 0) bob)
              (_connect_to_twitch_irc calm bob nothing_yet).2)
    as (_ & _ & H); [reflexivity |].
  exact H.
Defined.



(** X5. [send_message] never raises and never changes the object.  It
    returns true exactly when a chat socket is held, the token is not
    empty and the write did not raise; without a socket or without a
    token it calls nothing and only logs a warning. *)
Theorem X5_send_message_outcomes E text self w :
  exists b w',
    send_message E text self w = (Ret b, self, w') /\
    heap w' = heap w /\
    (b = true <->
     exists h, _irc_socket self = Some h /\
               Py.truthy (_oauth_token self) = true /\
               fails E (trace w)
                 (IrcSend h ("PRIVMSG #" +:+ _channel self +:+ " :" +:+ text
                               +:+ Py.CRLF)) = None) /\
    (_irc_socket self = None \/ _oauth_token self = EmptyString ->
     trace w'
     = Log WARNING "Cannot send message: No IRC connection or OAuth token"
         :: trace w) /\
    (forall h, _irc_socket self = Some h ->
       Py.truthy (_oauth_token self) = true ->
       exists o ev,
         trace w'
         = ev :: Call (IrcSend h ("PRIVMSG #" +:+ _channel self +:+ " :"
                                    +:+ text +:+ Py.CRLF)) o :: trace w).
Proof.
  unfold send_message, privmsg_command. unfold_m. simpl.
  destruct (_irc_socket self) as [h|] eqn:Hs; simpl.
  - destruct (_oauth_token self) as [|c tok] eqn:Ht; simpl.
    + do 2 eexists. split_and!; try done.
      * split; [done | by intros (? & ? & ? & ?)].
    + case_env E; do 2 eexists; (split_and!; [reflexivity | done | | | ]).
      all: try (intros [? | ?]; done).
      all: try (intros ? [= <-] _; by do 2 eexists).
      * split; [done |]. intros (h' & [= <-] & _ & Hf). congruence.
      * split; [| done]. intros _. by exists h.
  - do 2 eexists. split_and!; try done.
    split; [done | by intros (? & ? & ?)].
Qed.

(** * Forwarding to the relay *)

(** What [_send_to_proxy] does, from any state. *)
Lemma send_to_proxy_spec E text self w :
  exists b self' w',
    _send_to_proxy E text self w = (Ret b, self', w') /\
    heap w' = heap w /\
    _websocket self' = _websocket self /\
    _irc_socket self' = _irc_socket self /\
    _running self' = _running self /\
    _message_handlers self' = _message_handlers self /\
    exists evs,
      trace w' = evs ++ trace w /\
      length (filter (fun ev => is_call ev = true) evs) <= 1 /\
      Forall (fun ev => is_call ev = true -> is_relay_send ev = true) evs /\
      (b = true -> self' = self /\
                   exists h, Call (RelaySend h (text_input_frame text)) None ∈ evs).
Proof.
  unfold _send_to_proxy. unfold_m. simpl.
  destruct (is_connected_at E (trace w) self); simpl.
  - destruct (_websocket self) as [h|] eqn:Hh; simpl.
    + case_env E; do 3 eexists; (split; [reflexivity |]); simpl;
        split_and!; try done; exists_prefix;
        (split_and!; [simpl; lia | repeat constructor; done | ]);
        try done.
      intros _. split; [done |]. exists h. find_event.
    + do 3 eexists; (split; [reflexivity |]); simpl.
      split_and!; try done. exists_prefix.
      split_and!; [simpl; lia | repeat constructor; done | done].
  - do 3 eexists; (split; [reflexivity |]); simpl.
    split_and!; try done. exists_prefix.
    split_and!; [simpl; lia | repeat constructor; done | done].
Qed.

(** X6. When the write of a frame raises, [_send_to_proxy] reports
    failure and clears the connected flag, and the next forward writes
    nothing at all: it is refused with one error line until the relay is
    connected again. *)
Theorem X6_failed_forward_disconnects E text next self w h f :
  is_connected_at E (trace w) self = true ->
  _websocket self = Some h ->
  fails E (trace w) (RelaySend h (text_input_frame text)) = Some f ->
  let w1 := World (Log ERROR ("Error sending message to proxy: " +:+ failure_msg f)
                     :: Call (RelaySend h (text_input_frame text)) (Some f)
                     :: trace w) (heap w) in
  _send_to_proxy E text self w = (Ret false, set_connected false self, w1) /\
  _send_to_proxy E next (set_connected false self) w1
  = (Ret false, set_connected false self,
     World (Log ERROR "Cannot send message: Not connected to proxy" :: trace w1)
       (heap w1)).
Proof.
  intros Hc Hh Hf w1. split.
  - unfold _send_to_proxy. unfold_m. simpl. rewrite Hc. simpl.
    rewrite Hh. simpl. by rewrite Hf.
  - unfold _send_to_proxy. unfold_m. simpl.
    by rewrite is_connected_flag_off.
Qed.

Lemma X6_failed_forward_disconnects_witness :
  (is_connected_at relay_mute (trace nothing_yet) bob_live = true /\
   _websocket bob_live = Some 0 /\
   fails relay_mute (trace nothing_yet)
     (RelaySend 0 (text_input_frame "alice: hi")) = Some (Error "broken pipe")) /\
  _send_to_proxy relay_mute "alice: hi" bob_live nothing_yet
  = (Ret false, set_connected false bob_live,
     World [Log ERROR "Error sending message to proxy: broken pipe";
            Call (RelaySend 0 (text_input_frame "alice: hi"))
              (Some (Error "broken pipe"))] ∅).
Proof.
  split; [split_and!; reflexivity |].
  apply (X6_failed_forward_disconnects relay_mute "alice: hi" "alice: again"
           bob_live nothing_yet 0 (Error "broken pipe")); reflexivity.
Defined.

(** X7. [_handle_chat_message] never raises, whatever the relay does: it
    makes at most one call, which is a write of the frame on the relay,
    and leaves the sockets, the running flag and the handlers as they
    were. *)
Theorem X7_handle_chat_message_contained E chat_text self w :
  exists self' w' evs,
    _handle_chat_message E chat_text self w = (Ret tt, self', w') /\
    trace w' = evs ++ trace w /\
    heap w' = heap w /\
    length (filter (fun ev => is_call ev = true) evs) <= 1 /\
    Forall (fun ev => is_call ev = true -> is_relay_send ev = true) evs /\
    _websocket self' = _websocket self /\
    _irc_socket self' = _irc_socket self /\
    _running self' = _running self /\
    _message_handlers self' = _message_handlers self.
Proof.
  destruct (send_to_proxy_spec E chat_text self w)
    as (b & s1 & w1 & Hs & Hh & H1 & H2 & H3 & H4 & evs & Ht & Hn & Hk & _).
  exists s1, w1, evs.
  unfold _handle_chat_message. unfold_m. rewrite Hs. done.
Qed.

(** * The chat-poll loop, line by line *)

(** What one line can do. *)
Lemma process_line_spec E line self w :
  exists r self' w',
    process_line E line self w = (r, self', w') /\
    exists evs,
    trace w' = evs ++ trace w /\
    match r with Ret _ | Raise (Exc _) => True | Raise _ => False end /\
    heap w' = heap w /\
    _irc_socket self' = _irc_socket self /\
    _running self' = _running self /\
    length (filter (fun ev => is_call ev = true) evs) <= 1 /\
    (forall ev, ev ∈ evs -> is_irc_send ev = true ->
       Py.startswith "PING" line = true) /\
    (forall ev, ev ∈ evs -> is_relay_send ev = true ->
       exists chat h o,
         _parse_irc_message line = Some chat /\
         ev = Call (RelaySend h (text_input_frame chat)) o) /\
    (forall ev, ev ∈ evs -> is_call ev = true ->
       is_irc_send ev = true \/ is_relay_send ev = true).
Proof.
  unfold process_line.
  destruct (Py.is_empty line).
  { do 3 eexists; (split; [reflexivity |]). exists [].
    split_and!; try finish_events. }
  destruct (Py.startswith "PING" line) eqn:Hping.
  { unfold_m. simpl. destruct (_irc_socket self) as [h|] eqn:Hirc; simpl.
    - case_env E; do 3 eexists; (split; [reflexivity |]); simpl;
        exists_prefix; split_and!; try finish_events.
    - do 3 eexists; (split; [reflexivity |]). exists [].
      split_and!; try finish_events. }
  destruct (_parse_irc_message line) as [chat|] eqn:Hp.
  2:{ do 3 eexists; (split; [reflexivity |]). exists [].
      split_and!; try finish_events. }
  destruct (Py.truthy chat).
  2:{ do 3 eexists; (split; [reflexivity |]). exists [].
      split_and!; try finish_events. }
  unfold _handle_chat_message, _send_to_proxy. unfold_m. simpl.
  destruct (is_connected_at E _ self); simpl.
  - destruct (_websocket self) as [h|] eqn:Hh; simpl.
    + destruct (fails E _ _) eqn:Hf; simpl;
        do 3 eexists; (split; [reflexivity |]); simpl;
        exists_prefix; split_and!; try finish_events.
    + do 3 eexists; (split; [reflexivity |]); simpl.
      exists_prefix; split_and!; try finish_events.
  - do 3 eexists; (split; [reflexivity |]); simpl.
    exists_prefix; split_and!; try finish_events.
Qed.

(** What a batch of lines can do. *)
Lemma for_each_lines_spec E (lines : list string) : forall self w,
  exists r self' w',
    for_each (process_line E) lines self w = (r, self', w') /\
    exists evs,
    trace w' = evs ++ trace w /\
    match r with Ret _ | Raise (Exc _) => True | Raise _ => False end /\
    heap w' = heap w /\
    _irc_socket self' = _irc_socket self /\
    _running self' = _running self /\
    length (filter (fun ev => is_call ev = true) evs) <= length lines /\
    (forall ev, ev ∈ evs -> is_irc_send ev = true ->
       exists line, line ∈ lines /\ Py.startswith "PING" line = true) /\
    (forall ev, ev ∈ evs -> is_relay_send ev = true ->
       exists line chat h o,
         line ∈ lines /\ _parse_irc_message line = Some chat /\
         ev = Call (RelaySend h (text_input_frame chat)) o) /\
    (forall ev, ev ∈ evs -> is_call ev = true ->
       is_irc_send ev = true \/ is_relay_send ev = true).
Proof.
  induction lines as [|line lines IH]; intros self w.
  { exists (Ret tt), self, w. split; [done |]. exists [].
    split_and!; try done; intros ev Hev; by apply elem_of_nil in Hev. }
  destruct (process_line_spec E line self w)
    as (r1 & s1 & w1 & H1 & evs1 & Ht1 & He1 & Hh1 & Hi1 & Hr1 & Hn1
        & Hp1 & Hs1 & Hc1).
  cbn [for_each]. unfold mbind, M_bind. rewrite H1.
  destruct r1 as [[]|e].
  - destruct (IH s1 w1)
      as (r2 & s2 & w2 & H2 & evs2 & Ht2 & He2 & Hh2 & Hi2 & Hr2 & Hn2
          & Hp2 & Hs2 & Hc2).
    exists r2, s2, w2. split; [done |]. exists (evs2 ++ evs1).
    split_and!.
    + by rewrite Ht2, Ht1, (assoc_L (++)).
    + done.
    + congruence.
    + congruence.
    + congruence.
    + rewrite filter_app, length_app. simpl. lia.
    + intros ev [Hev|Hev]%elem_of_app Hk.
      * destruct (Hp2 ev Hev Hk) as (l & Hl & Hping).
        exists l. split; [by apply list_elem_of_further | done].
      * exists line. split; [apply list_elem_of_here | by eapply Hp1].
    + intros ev [Hev|Hev]%elem_of_app Hk.
      * destruct (Hs2 ev Hev Hk) as (l & chat & h & o & Hl & Hparse & ->).
        exists l, chat, h, o. split_and!; try done.
        by apply list_elem_of_further.
      * destruct (Hs1 ev Hev Hk) as (chat & h & o & Hparse & ->).
        exists line, chat, h, o. split_and!; try done.
        apply list_elem_of_here.
    + intros ev [Hev|Hev]%elem_of_app Hk; eauto.
  - exists (Raise e), s1, w1. split; [done |]. exists evs1.
    split_and!; try done.
    + simpl. lia.
    + intros ev Hev Hk. exists line.
      split; [apply list_elem_of_here | by eapply Hp1].
    + intros ev Hev Hk.
      destruct (Hs1 ev Hev Hk) as (chat & h & o & Hparse & ->).
      exists line, chat, h, o. split_and!; try done. apply list_elem_of_here.
Qed.

(** X8. Whatever a payload holds, the batch loop only ever writes a
    reply on the chat socket for a line of the payload that starts with
    [PING], and only ever writes on the relay the frame of a chat post
    the parser accepted from a line of the payload; it makes no other
    call, at most one call per line, keeps the store, the chat socket and
    the running flag, and lets out nothing but an [Exception]. *)
Theorem X8_batch_forwards_only_chat_posts E response self w :
  let lines := Py.split Py.CRLF (Py.strip response) in
  exists r self' w' evs,
    process_response E response self w = (r, self', w') /\
    trace w' = evs ++ trace w /\
    match r with Ret _ | Raise (Exc _) => True | Raise _ => False end /\
    heap w' = heap w /\
    _irc_socket self' = _irc_socket self /\
    _running self' = _running self /\
    length (filter (fun ev => is_call ev = true) evs) <= length lines /\
    (forall ev, ev ∈ evs -> is_irc_send ev = true ->
       exists line, line ∈ lines /\ Py.startswith "PING" line = true) /\
    (forall ev, ev ∈ evs -> is_relay_send ev = true ->
       exists line chat h o,
         line ∈ lines /\ _parse_irc_message line = Some chat /\
         ev = Call (RelaySend h (text_input_frame chat)) o) /\
    (forall ev, ev ∈ evs -> is_call ev = true ->
       is_irc_send ev = true \/ is_relay_send ev = true).
Proof.
  intros lines. unfold process_response. fold lines.
  destruct (for_each_lines_spec E lines self w)
    as (r & s' & w' & H & evs & Hrest).
  by exists r, s', w', evs.
Qed.

(** X9. A read that returns an empty payload, or only whitespace (a
    lone CRLF for instance), does nothing: no reply, no frame, no log
    line and no pause; the round ends with the read as its only event and
    the loop goes straight to the next read. *)
Theorem X9_blank_payload_ignored E self w h :
  _irc_socket self = Some h ->
  fails E (trace w) (IrcRecv h) = None ->
  Py.strip (irc_data E (trace w)) = EmptyString ->
  let w1 := World (Call (IrcRecv h) None :: trace w) (heap w) in
  process_response E (irc_data E (trace w)) self w1 = (Ret tt, self, w1) /\
  monitor_step E self w = (Ret Continue, self, w1).
Proof.
  intros Hh Hrecv Hblank w1. subst w1. split.
  - unfold process_response. by rewrite Hblank.
  - unfold monitor_step, irc_recv, process_response.
    unfold_m. simpl. rewrite Hh. simpl. rewrite Hrecv, Hblank. reflexivity.
Qed.

Lemma X9_blank_payload_ignored_witness :
  monitor_step calm bob_live nothing_yet
  = (Ret Continue, bob_live, World [Call (IrcRecv 2) None] ∅).
Proof.
  apply (X9_blank_payload_ignored calm bob_live nothing_yet 2); reflexivity.
Defined.

(** X10. When the write of the reply to a probe raises, the rest of the
    payload is dropped: the line after the probe is not processed, and
    the round of the loop, still running, logs the error, sleeps one
    second and goes on. *)
Theorem X10_failed_reply_drops_rest E (l1 l2 : string) self w h f :
  Py.contains Py.CRLF l1 = false -> Py.contains Py.CRLF l2 = false ->
  Py.strip l1 = l1 -> Py.strip l2 = l2 ->
  Py.startswith "PING" l1 = true ->
  _irc_socket self = Some h ->
  _running self = true ->
  fails E (trace w) (IrcRecv h) = None ->
  irc_data E (trace w) = l1 +:+ Py.CRLF +:+ l2 ->
  let pong := IrcSend h (pong_message l1 +:+ Py.CRLF) in
  let tr := Call (IrcRecv h) None :: trace w in
  fails E tr pong = Some f ->
  process_response E (l1 +:+ Py.CRLF +:+ l2) self (World tr (heap w))
  = (Raise (Exc f), self, World (Call pong (Some f) :: tr) (heap w)) /\
  monitor_step E self w
  = (Ret Continue, self,
     World (Sleep 1
              :: Log ERROR ("Error monitoring Twitch chat: " +:+ failure_msg f)
              :: Call pong (Some f) :: tr) (heap w)).
Proof.
  intros Hc1 Hc2 Hs1 Hs2 Hping Hh Hrun Hrecv Hdata pong tr Hf.
  assert (Hbatch :
    process_response E (l1 +:+ Py.CRLF +:+ l2) self (World tr (heap w))
    = (Raise (Exc f), self, World (Call pong (Some f) :: tr) (heap w))).
  { rewrite process_response_two_lines by done.
    unfold mbind, M_bind. rewrite (process_line_ping E l1 self _ h) by done.
    unfold call. cbn [trace heap]. fold pong. by rewrite Hf. }
  split; [done |].
  unfold monitor_step, irc_recv. unfold_m. simpl. rewrite Hh. simpl.
  rewrite Hrecv. simpl. rewrite Hdata. fold tr. rewrite Hbatch. simpl.
  by rewrite Hrun.
Qed.

Lemma X10_failed_reply_drops_rest_witness :
  monitor_step chat_mute bob_live nothing_yet
  = (Ret Continue, bob_live,
     World [Sleep 1;
            Log ERROR "Error monitoring Twitch chat: broken pipe";
            Call (IrcSend 2 ("PONG :tmi.twitch.tv" +:+ Py.CRLF))
              (Some (Error "broken pipe"));
            Call (IrcRecv 2) None] ∅).
Proof.
  apply (X10_failed_reply_drops_rest chat_mute "PING :tmi.twitch.tv"
           "PING :again" bob_live nothing_yet 2 (Error "broken pipe"));
    reflexivity.
Defined.

(** * The chat-poll loop as a whole *)

(** What one round does. *)
Lemma monitor_step_spec E self w :
  exists fl self' w',
    monitor_step E self w = (Ret fl, self', w') /\
    heap w' = heap w /\
    _irc_socket self' = _irc_socket self /\
    _running self' = _running self /\
    (fl = Break -> _running self = false).
Proof.
  unfold monitor_step, irc_recv. unfold_m. simpl.
  destruct (_irc_socket self) as [h|] eqn:Hh; simpl.
  - destruct (fails E (trace w) (IrcRecv h)) eqn:Hrecv; simpl.
    + destruct (_running self) eqn:Hrun; do 3 eexists;
        (split; [reflexivity |]); done.
    + unfold process_response.
      destruct (for_each_lines_spec E
                  (Py.split Py.CRLF (Py.strip (irc_data E (trace w)))) self
                  (World (Call (IrcRecv h) None :: trace w) (heap w)))
        as (r & s' & w' & Hp & evs & _ & He & Hheap & Hi & Hr & _).
      rewrite Hp. destruct r as [[]|[e| |]]; try done; simpl.
      * exists Continue, s', w'. split_and!; try done. congruence.
      * destruct (_running s') eqn:Hrun; do 3 eexists;
          (split; [reflexivity |]); simpl; split_and!; try done; congruence.
  - destruct (_running self) eqn:Hrun; do 3 eexists;
      (split; [reflexivity |]); done.
Qed.

Lemma monitor_loop_spec E (rounds : nat) : forall self w,
  exists ended self' w',
    monitor_loop E rounds self w = (Ret ended, self', w') /\
    heap w' = heap w /\
    _irc_socket self' = _irc_socket self /\
    _running self' = _running self.
Proof.
  induction rounds as [|n IH]; intros self w.
  { by exists false, self, w. }
  cbn [monitor_loop]. unfold_m. simpl.
  destruct (_running self && truthy_handle (_irc_socket self)).
  2:{ by exists true, self, w. }
  destruct (monitor_step_spec E self w)
    as (fl & s1 & w1 & H1 & Hh1 & Hi1 & Hr1 & _).
  rewrite H1. destruct fl.
  - destruct (IH s1 w1) as (b & s2 & w2 & H2 & Hh2 & Hi2 & Hr2).
    exists b, s2, w2. split_and!; congruence.
  - by exists true, s1, w1.
Qed.

(** X11. Observed for any number of rounds, [_monitor_twitch_chat] lets
    no exception out: read errors, write errors and a missing socket all
    end in a log line.  It never changes the store, the chat socket it
    reads from or the running flag (only [disconnect] stops it). *)
Theorem X11_monitor_never_raises E rounds self w :
  exists self' w',
    _monitor_twitch_chat E rounds self w = (Ret tt, self', w') /\
    heap w' = heap w /\
    _irc_socket self' = _irc_socket self /\
    _running self' = _running self.
Proof.
  unfold _monitor_twitch_chat. unfold_m. simpl.
  destruct (monitor_loop_spec E rounds self
              (World (Log INFO ("Started monitoring Twitch chat for #"
                                  +:+ _channel self) :: trace w) (heap w)))
    as (b & s1 & w1 & H1 & Hh & Hi & Hr).
  rewrite H1. destruct b; by do 2 eexists.
Qed.

(** When the running flag is off or no chat socket is held, the
    chat-poll loop reads nothing: it logs that it started and that it
    stopped, and leaves the object alone. *)
Lemma monitor_idle_when_stopped E rounds self w :
  _running self = false \/ _irc_socket self = None ->
  _monitor_twitch_chat E (S rounds) self w
  = (Ret tt, self,
     World (Log INFO "Stopped monitoring Twitch chat"
              :: Log INFO ("Started monitoring Twitch chat for #" +:+ _channel self)
              :: trace w) (heap w)).
Proof.
  intros H. unfold _monitor_twitch_chat. cbn [monitor_loop]. unfold_m. simpl.
  assert (_running self && truthy_handle (_irc_socket self) = false) as ->.
  { destruct H as [-> | ->]; [done | apply andb_false_r]. }
  reflexivity.
Qed.

(** * The relay receive loop *)

(** X12. Dispatch never raises and calls every registered handler
    exactly once, in registration order and with the very same message,
    even when handlers raise; a handler registered later is called after
    all the earlier ones. *)
Theorem X12_handlers_called_in_order (h : handler) message self w :
  exists w',
    (register_message_handler h;; handle_incoming_messages message) self w
    = (Ret tt, add_handler h self, w') /\
    omap invoked (trace w')
    = reverse ((fun j => (j, message))
                 <$> seq 0 (S (length (_message_handlers self))))
        ++ omap invoked (trace w).
Proof.
  unfold register_message_handler, handle_incoming_messages. unfold_m. simpl.
  destruct (invoke_all_calls (_message_handlers self ++ [h]) 0 message
              (add_handler h self)
              (World (Log DEBUG "Registered new message handler" :: trace w)
                 (heap w)))
    as (w' & Hrun & Hcalls).
  exists w'. split; [done |]. rewrite Hcalls, length_app. simpl.
  by replace (length (_message_handlers self) + 1)
    with (S (length (_message_handlers self))) by lia.
Qed.

Lemma handle_incoming_spec message self w :
  exists w',
    handle_incoming_messages message self w = (Ret tt, self, w') /\
    omap invoked (trace w')
    = reverse ((fun j => (j, message))
                 <$> seq 0 (length (_message_handlers self)))
        ++ omap invoked (trace w).
Proof.
  unfold handle_incoming_messages. unfold_m. simpl.
  apply invoke_all_calls.
Qed.

(** What the logging block can do. *)
Lemma log_received_spec data self w :
  exists r w',
    log_received data self w = (r, self, w') /\
    match r with Ret _ | Raise (Exc _) => True | Raise _ => False end /\
    omap invoked (trace w') = omap invoked (trace w).
Proof.
  unfold log_received, py_in, load, alloc, setitem, store, load. unfold_m.
  destruct data as [l|v]; simpl.
  - repeat (case_match; simpl; simplify_eq); by do 2 eexists.
  - destruct v; simpl; repeat (case_match; simpl; simplify_eq);
      by do 2 eexists.
Qed.

Lemma relay_recv_spec E self w :
  exists r w',
    relay_recv E self w = (r, self, w') /\
    match r with Ret _ | Raise (Exc _) => True | Raise _ => False end /\
    omap invoked (trace w') = omap invoked (trace w).
Proof.
  unfold relay_recv, loads, alloc. unfold_m. simpl.
  repeat (case_match; simpl; simplify_eq); by do 2 eexists.
Qed.

Lemma receive_body_spec E self w :
  exists r w',
    receive_body E self w = (r, self, w') /\
    match r with Ret _ | Raise (Exc _) => True | Raise _ => False end.
Proof.
  unfold receive_body. unfold mbind, M_bind.
  destruct (relay_recv_spec E self w) as (r1 & w1 & H1 & He1 & _).
  rewrite H1. destruct r1 as [data|e]; [| by do 2 eexists].
  destruct (log_received_spec data self w1) as (r2 & w2 & H2 & He2 & _).
  rewrite H2. destruct r2 as [[]|e]; [| by do 2 eexists].
  destruct (handle_incoming_spec data self w2) as (w3 & H3 & _).
  rewrite H3. by do 2 eexists.
Qed.

Lemma receive_step_spec E self w :
  exists fl self' w',
    receive_step E self w = (Ret fl, self', w') /\
    (self' = self \/ self' = set_connected false self) /\
    (fl = Break -> _connected self' = false).
Proof.
  unfold receive_step. unfold mbind, M_bind, try_except, try_catch.
  destruct (receive_body_spec E self w) as (r & w1 & H & He).
  rewrite H. destruct r as [[]|[[m|m]| |]]; try done; unfold_m; simpl;
    do 3 eexists; (split; [reflexivity |]); split; auto; done.
Qed.

Lemma receive_loop_spec E (rounds : nat) : forall self w,
  exists ended self' w',
    receive_loop E rounds self w = (Ret ended, self', w') /\
    (self' = self \/ self' = set_connected false self).
Proof.
  induction rounds as [|n IH]; intros self w.
  { exists false, self, w. auto. }
  cbn [receive_loop]. unfold_m. simpl.
  destruct (_running self && is_connected_at E (trace w) self).
  2:{ exists true, self, w. auto. }
  destruct (receive_step_spec E self w) as (fl & s1 & w1 & H1 & Hs1 & _).
  rewrite H1. destruct fl.
  - destruct (IH s1 w1) as (b & s2 & w2 & H2 & Hs2).
    exists b, s2, w2. split; [done |].
    destruct Hs1 as [-> | ->]; destruct Hs2 as [-> | ->]; auto.
  - exists true, s1, w1. auto.
Qed.

(** X13. Observed for any number of rounds, [start_receiving] lets no
    exception out, whatever the relay delivers and whatever the handlers
    do; the only thing it may change in the object is to clear the
    connected flag. *)
Theorem X13_receive_never_raises E rounds self w :
  exists self' w',
    start_receiving E rounds self w = (Ret tt, self', w') /\
    (self' = self \/ self' = set_connected false self).
Proof.
  unfold start_receiving. unfold_m. simpl.
  destruct (is_connected_at E (trace w) self); simpl.
  2:{ do 2 eexists. split; [reflexivity |]. auto. }
  destruct (receive_loop_spec E rounds self
              (World (Log INFO "Started receiving messages from proxy"
                        :: trace w) (heap w)))
    as (b & s1 & w1 & H1 & Hs1).
  rewrite H1. destruct b; by do 2 eexists.
Qed.

(** X14. When the server closes the relay connection while a read is
    pending, the receive loop logs it, clears the connected flag and
    ends at once: no handler is called and no further read is made,
    however many rounds were left. *)
Theorem X14_remote_close_ends_receiving E rounds self w h msg :
  _running self = true ->
  is_connected_at E (trace w) self = true ->
  _websocket self = Some h ->
  let tr := Log INFO "Started receiving messages from proxy" :: trace w in
  is_connected_at E tr self = true ->
  fails E tr (RelayRecv h) = Some (ConnectionClosed msg) ->
  start_receiving E (S rounds) self w
  = (Ret tt, set_connected false self,
     World (Log INFO "Stopped receiving messages from proxy"
              :: Log WARNING "WebSocket connection closed by server"
              :: Call (RelayRecv h) (Some (ConnectionClosed msg))
              :: tr) (heap w)).
Proof.
  intros Hrun Hc0 Hh tr Hc Hf.
  unfold start_receiving. cbn [receive_loop].
  unfold receive_step, receive_body, relay_recv. unfold_m. simpl.
  rewrite Hc0. simpl. fold tr. rewrite Hrun, Hc. simpl. rewrite Hh. simpl.
  fold tr. by rewrite Hf.
Qed.

Lemma X14_remote_close_ends_receiving_witness :
  start_receiving relay_hangup 5 bob_live nothing_yet
  = (Ret tt, set_connected false bob_live,
     World [Log INFO "Stopped receiving messages from proxy";
            Log WARNING "WebSocket connection closed by server";
            Call (RelayRecv 0) (Some (ConnectionClosed "going away"));
            Log INFO "Started receiving messages from proxy"] ∅).
Proof.
  apply (X14_remote_close_ends_receiving relay_hangup 4 bob_live nothing_yet 0
           "going away"); reflexivity.
Defined.

(** While [is_connected] is false, [start_receiving] reads
    nothing: it logs one error line and returns. *)
Lemma receive_refused_when_not_connected E rounds self w :
  is_connected_at E (trace w) self = false ->
  start_receiving E rounds self w
  = (Ret tt, self,
     World (Log ERROR "Cannot start receiving: Not connected to proxy"
              :: trace w) (heap w)).
Proof.
  intros Hc. unfold start_receiving. unfold_m. simpl. by rewrite Hc.
Qed.

(** Dispatch only adds events. *)
Lemma invoke_all_extends (hs : list handler) : forall i message self w,
  exists evs, trace (invoke_all i hs message self w).2 = evs ++ trace w.
Proof.
  induction hs as [|h hs IH]; intros i message self w.
  - by exists [].
  - cbn [invoke_all]. unfold mbind, M_bind, invoke.
    destruct (h message (heap w)) as [hp [e|]]; unfold log, emit;
      match goal with
      | |- context [invoke_all (S i) hs message self ?w0] =>
          destruct (IH (S i) message self w0) as (evs & Hevs);
          destruct (invoke_all_calls hs (S i) message self w0) as (w' & Hrun & _)
      end; rewrite Hrun in *; simpl in *; rewrite Hevs.
    + eexists (evs ++ [_; _]). by rewrite <- (assoc_L (++)).
    + eexists (evs ++ [_]). by rewrite <- (assoc_L (++)).
Qed.

(** The [try] body on an object without an [audio] member. *)
Lemma receive_body_plain E self w h kvs :
  _websocket self = Some h ->
  fails E (trace w) (RelayRecv h) = None ->
  relay_frame E (trace w) = Some (JObj kvs) ->
  dict_of kvs !! "audio" = None ->
  let l := fresh (dom (heap w)) in
  receive_body E self w
  = handle_incoming_messages (Ref l) self
      (World (LogFrame DEBUG RECEIVED (inr (dict_of kvs))
                :: Call (RelayRecv h) None :: trace w)
         (<[l := dict_of kvs]> (heap w))).
Proof.
  intros Hh Hrecv Hframe Ha l.
  unfold receive_body, relay_recv, loads, log_received, py_in, load, alloc.
  unfold_m. simpl. rewrite Hh. simpl. rewrite Hrecv, Hframe. simpl.
  fold l. rewrite !lookup_insert_eq. simpl. rewrite Ha. simpl.
  by rewrite !lookup_insert_eq.
Qed.

(** X15. A decoded object whose [audio] member, if any, has a length is
    always dispatched: the round goes on, every registered handler is
    called once, in order, with the decoded dictionary itself (not the
    copy made for the log), and the dictionary shown in the log line is
    the frame with the audio value, if present, replaced by the length
    marker and every other member as received. *)
Theorem X15_sized_frame_logged_and_dispatched E self w h kvs :
  _websocket self = Some h ->
  fails E (trace w) (RelayRecv h) = None ->
  relay_frame E (trace w) = Some (JObj kvs) ->
  (forall a, dict_of kvs !! "audio" = Some a -> is_Some (py_len a)) ->
  let l := fresh (dom (heap w)) in
  exists w' shown,
    receive_step E self w = (Ret Continue, self, w') /\
    omap invoked (trace w')
    = reverse ((fun j => (j, Ref l))
                 <$> seq 0 (length (_message_handlers self)))
        ++ omap invoked (trace w) /\
    LogFrame DEBUG RECEIVED (inr shown) ∈ trace w' /\
    (forall k, k <> "audio" -> shown !! k = dict_of kvs !! k) /\
    shown !! "audio"
    = (a ← dict_of kvs !! "audio"; n ← py_len a; Some (JStr (audio_marker n))).
Proof.
  intros Hh Hrecv Hframe Hsized l.
  unfold receive_step. unfold try_except, try_catch, mbind at 1, M_bind at 1.
  destruct (dict_of kvs !! "audio") as [a|] eqn:Ha.
  - destruct (Hsized a eq_refl) as [n Hn].
    destruct (receive_body_audio E self w h kvs a n Hh Hrecv Hframe Ha Hn)
      as [Hbody _].
    rewrite Hbody. clear Hbody. fold l.
    match goal with
    | |- context [handle_incoming_messages (Ref l) self ?w0] =>
        destruct (handle_incoming_spec (Ref l) self w0) as (w' & Hrun & Hcalls);
        pose proof (invoke_all_extends (_message_handlers self) 0 (Ref l) self w0)
          as (evs & Hevs)
    end.
    unfold handle_incoming_messages in Hrun. unfold_m. simpl in Hrun.
    unfold handle_incoming_messages. unfold_m. simpl.
    rewrite Hrun in *. simpl in *.
    exists w', (<["audio" := JStr (audio_marker n)]> (dict_of kvs)).
    split_and!; try done.
    + rewrite Hevs. apply elem_of_app. right. apply list_elem_of_here.
    + intros k Hk. by rewrite lookup_insert_ne.
    + rewrite lookup_insert_eq. simpl. by rewrite Hn.
  - rewrite (receive_body_plain E self w h kvs Hh Hrecv Hframe Ha). fold l.
    match goal with
    | |- context [handle_incoming_messages (Ref l) self ?w0] =>
        destruct (handle_incoming_spec (Ref l) self w0) as (w' & Hrun & Hcalls);
        pose proof (invoke_all_extends (_message_handlers self) 0 (Ref l) self w0)
          as (evs & Hevs)
    end.
    unfold handle_incoming_messages in Hrun. unfold_m. simpl in Hrun.
    unfold handle_incoming_messages. unfold_m. simpl.
    rewrite Hrun in *. simpl in *.
    exists w', (dict_of kvs).
    split_and!; try done.
    rewrite Hevs. apply elem_of_app. right. apply list_elem_of_here.
Qed.

Lemma X15_sized_frame_logged_and_dispatched_witness :
  exists w' shown,
    receive_step with_audio bob_live nothing_yet = (Ret Continue, bob_live, w') /\
    omap invoked (trace w') = [(0, Ref 0)] /\
    LogFrame DEBUG RECEIVED (inr shown) ∈ trace w' /\
    (forall k, k <> "audio" -> shown !! k = dict_of [("type", JStr "audio"); ("audio", JStr "UklG")] !! k) /\
    shown !! "audio" = Some (JStr "[Audio data, length: 4]").
Proof.
  apply (X15_sized_frame_logged_and_dispatched with_audio bob_live nothing_yet 0
           [("type", JStr "audio"); ("audio", JStr "UklG")]);
    try reflexivity.
  intros a Ha. vm_compute in Ha. injection Ha as <-. by eexists.
Defined.

(** X16. A received text that is not JSON, or that decodes to a bare
    null, boolean or number, or to a string or array that contains
    [audio], is never dispatched: the logging block (or the decoder)
    raises, the round logs one error, sleeps one second and goes on; no
    handler is called, nothing is allocated and the object is unchanged. *)
Theorem X16_unusable_frame_dropped E self w h :
  _websocket self = Some h ->
  fails E (trace w) (RelayRecv h) = None ->
  match relay_frame E (trace w) with
  | Some (JStr s) => Py.contains "audio" s = true
  | Some (JArr vs) => existsb (json_eqb_str "audio") vs = true
  | Some (JObj _) => False
  | Some JNull | Some (JBool _) | Some (JNum _) | None => True
  end ->
  exists msg,
    receive_step E self w
    = (Ret Continue, self,
       World (Sleep 1
                :: Log ERROR ("Error receiving message from proxy: " +:+ msg)
                :: Call (RelayRecv h) None :: trace w) (heap w)).
Proof.
  intros Hh Hrecv Hframe.
  unfold receive_step, receive_body, relay_recv, loads, log_received, py_in.
  unfold_m. simpl. rewrite Hh. simpl. rewrite Hrecv.
  destruct (relay_frame E (trace w)) as [[| b | n | s | vs | kvs]|];
    simpl; try done; rewrite ?Hframe; by eexists.
Qed.

Lemma X16_unusable_frame_dropped_witness :
  exists msg,
    receive_step calm bob_live nothing_yet
    = (Ret Continue, bob_live,
       World [Sleep 1;
              Log ERROR ("Error receiving message from proxy: " +:+ msg);
              Call (RelayRecv 0) None] ∅).
Proof.
  apply (X16_unusable_frame_dropped calm bob_live nothing_yet 0);
    [reflexivity | reflexivity | exact I].
Defined.

(** X17. A frame that decodes to a string or an array without [audio]
    passes the membership test and is dispatched like a dictionary: it is
    logged as received and each handler is called with that value;
    nothing is allocated. *)
Theorem X17_string_frame_dispatched E self w h v :
  _websocket self = Some h ->
  fails E (trace w) (RelayRecv h) = None ->
  relay_frame E (trace w) = Some v ->
  match v with
  | JStr s => Py.contains "audio" s = false
  | JArr vs => existsb (json_eqb_str "audio") vs = false
  | _ => False
  end ->
  exists w',
    receive_step E self w = (Ret Continue, self, w') /\
    omap invoked (trace w')
    = reverse ((fun j => (j, Imm v))
                 <$> seq 0 (length (_message_handlers self)))
        ++ omap invoked (trace w) /\
    receive_body E self w
    = handle_incoming_messages (Imm v) self
        (World (LogFrame DEBUG RECEIVED (inl v)
                  :: Call (RelayRecv h) None :: trace w) (heap w)).
Proof.
  intros Hh Hrecv Hframe Hv.
  assert (Hbody : receive_body E self w
    = handle_incoming_messages (Imm v) self
        (World (LogFrame DEBUG RECEIVED (inl v)
                  :: Call (RelayRecv h) None :: trace w) (heap w))).
  { unfold receive_body, relay_recv, loads, log_received, py_in.
    unfold_m. simpl. rewrite Hh. simpl. rewrite Hrecv, Hframe.
    destruct v; simpl; try done; by rewrite Hv. }
  unfold receive_step. unfold try_except, try_catch, mbind at 1, M_bind at 1.
  rewrite Hbody.
  match goal with
  | |- context [handle_incoming_messages (Imm v) self ?w0] =>
      destruct (handle_incoming_spec (Imm v) self w0) as (w' & Hrun & Hcalls)
  end.
  rewrite Hrun. exists w'. split_and!; done.
Qed.

Lemma X17_string_frame_dispatched_witness :
  exists w',
    receive_step with_string bob_live nothing_yet = (Ret Continue, bob_live, w') /\
    omap invoked (trace w') = [(0, Imm (JStr "pong"))] /\
    receive_body with_string bob_live nothing_yet
    = handle_incoming_messages (Imm (JStr "pong")) bob_live
        (World [LogFrame DEBUG RECEIVED (inl (JStr "pong"));
                Call (RelayRecv 0) None] ∅).
Proof.
  apply (X17_string_frame_dispatched with_string bob_live nothing_yet 0
           (JStr "pong")); reflexivity.
Defined.

(** * The entry point *)

Lemma connect_spec E url self w :
  exists b s' w',
    connect E url self w = (Ret b, s', w') /\
    (b = true ->
     fails E (trace w) (RelayConnect url) = None /\
     s' = set_connected true (set_websocket (Some (length (trace w))) self) /\
     w' = World (Log INFO ("Connected to proxy at " +:+ url)
                   :: Call (RelayConnect url) None :: trace w) (heap w)).
Proof.
  unfold connect. unfold_m. simpl.
  destruct (fails E (trace w) (RelayConnect url)); simpl;
    do 3 eexists; (split; [reflexivity |]); done.
Qed.

(** The [try] block of [run] with its handlers never raises. *)
Lemma run_body_returns E gather self w :
  exists s' w',
    try_catch
       (update (set_running true);;
        ok ← connect E PROXY_URL;
        if negb ok then log ERROR "Failed to connect to proxy, exiting"
        else
          ok ← _connect_to_twitch_irc E;
          if negb ok then
            log ERROR "Failed to connect to Twitch IRC, exiting";;
            disconnect E
          else
            self ← get_self;
            log INFO ("Connected to Twitch channel #" +:+ _channel self);;
            try_catch gather
              (fun e =>
                 match e with
                 | CancelledError => Some (log INFO "Tasks cancelled")
                 | _ => None
                 end))
       (fun e =>
          match e with
          | KeyboardInterrupt =>
              Some (log INFO "Received keyboard interrupt, shutting down")
          | Exc f =>
              Some (log ERROR ("Error in Twitch Live run loop: " +:+ failure_msg f);;
                    emit LogTraceback)
          | CancelledError => None
          end) self w
    = (Ret tt, s', w').
Proof.
  unfold try_catch at 1. unfold mbind at 1 2, M_bind at 1 2. unfold update at 1.
  destruct (connect_spec E PROXY_URL (set_running true self) w)
    as (b & s1 & w1 & Hc & _).
  rewrite Hc. destruct b; simpl.
  2:{ unfold_m. by do 2 eexists. }
  unfold mbind at 1, M_bind at 1.
  destruct (connect_irc_spec E s1 w1) as (b & s2 & w2 & Hi & _).
  rewrite Hi. destruct b; simpl.
  - unfold_m. simpl.
    destruct (gather s2 _) as [[[[]|[f| |]] s3] w3]; by do 2 eexists.
  - unfold mbind, M_bind, log, emit.
    match goal with
    | |- context [disconnect E ?s ?w0] =>
        destruct (disconnect_spec E s w0) as (s3 & w3 & Hd & _)
    end.
    rewrite Hd. by do 2 eexists.
Qed.

(** X18. Whatever the environment and whatever the concurrent phase
    does (returns, raises an exception, is cancelled or interrupted from
    the keyboard), [run] returns without raising, its last act is the
    shutdown, and it leaves the disconnected state: both flags off and
    the relay seen as not connected. *)
Theorem X18_run_always_shuts_down E gather self w :
  exists self' w',
    run E gather self w = (Ret tt, self', w') /\
    Disconnected E self' w' /\
    exists evs,
      trace w' = Log INFO "Disconnected from Twitch and proxy server" :: evs.
Proof.
  unfold run, try_finally.
  destruct (run_body_returns E gather self w) as (s1 & w1 & Hb).
  rewrite Hb.
  destruct (disconnect_spec E s1 w1)
    as (s2 & w2 & Hd & evs & Ht & _ & Hr & Hc & _).
  rewrite Hd. exists s2, w2. split; [done |]. split.
  - unfold Disconnected. split_and!; try done. by apply is_connected_flag_off.
  - revert Hd. unfold disconnect. unfold_m. simpl.
    destruct (_irc_socket s1), (_websocket s1); simpl;
      repeat (match goal with
              | |- context [fails E ?t ?a] => destruct (fails E t a); simpl
              end);
      intros [= <- <-]; by eexists.
Qed.

(** X19. When both connections succeed, the concurrent phase of [run]
    starts from the fully connected state: running and connected flags
    on, the relay handle and the chat socket handle stored (numbered by
    the history length at their creation), after the relay connection,
    the three handshake commands and the two log lines, in that order;
    whatever that phase does, the shutdown follows. *)
Theorem X19_run_starts_loops_connected E gather self w :
  let h := length (trace w) in
  let tr1 := Log INFO ("Connected to proxy at " +:+ PROXY_URL)
               :: Call (RelayConnect PROXY_URL) None :: trace w in
  let hi := length tr1 in
  let tr2 := Call (IrcSend hi (pass_command (_oauth_token self))) None
               :: Call (IrcCreate IRC_URL) None :: tr1 in
  let tr3 := Call (IrcSend hi (nick_command (_username self))) None :: tr2 in
  let tr4 := Call (IrcSend hi (join_command (_channel self))) None :: tr3 in
  fails E (trace w) (RelayConnect PROXY_URL) = None ->
  fails E tr1 (IrcCreate IRC_URL) = None ->
  fails E (Call (IrcCreate IRC_URL) None :: tr1)
    (IrcSend hi (pass_command (_oauth_token self))) = None ->
  fails E tr2 (IrcSend hi (nick_command (_username self))) = None ->
  fails E tr3 (IrcSend hi (join_command (_channel self))) = None ->
  let live :=
    set_irc_socket (Some hi)
      (set_connected true (set_websocket (Some h) (set_running true self))) in
  run E gather self w
  = try_finally
      (try_catch
         (try_catch gather
            (fun e =>
               match e with
               | CancelledError => Some (log INFO "Tasks cancelled")
               | _ => None
               end))
         (fun e =>
            match e with
            | KeyboardInterrupt =>
                Some (log INFO "Received keyboard interrupt, shutting down")
            | Exc f =>
                Some (log ERROR ("Error in Twitch Live run loop: "
                                   +:+ failure_msg f);;
                      emit LogTraceback)
            | CancelledError => None
            end))
      (disconnect E) live
      (World (Log INFO ("Connected to Twitch channel #" +:+ _channel self)
                :: Log INFO ("Connected to Twitch IRC for channel #"
                               +:+ _channel self)
                :: tr4) (heap w)) /\
  _running live = true /\ _connected live = true /\
  _websocket live = Some h /\ _irc_socket live = Some hi /\
  _message_handlers live = _message_handlers self.
Proof.
  intros h tr1 hi tr2 tr3 tr4 H1 H2 H3 H4 H5 live.
  split; [| done].
  subst h tr1 hi tr2 tr3 tr4 live. simpl in *.
  unfold run, try_finally, try_catch, connect, _connect_to_twitch_irc.
  unfold_m. simpl. rewrite H1. simpl. rewrite H2. simpl.
  rewrite H3. simpl. rewrite H4. simpl. rewrite H5. simpl. reflexivity.
Qed.

Lemma X19_run_starts_loops_connected_witness :
  run calm cancelled bob nothing_yet
  = (Ret tt,
     Platform "bobstream" EmptyString "justinfan12345" (Some 0) None
       false false [],
     World [Log INFO "Disconnected from Twitch and proxy server";
            Call (RelayClose 0) None;
            Call (IrcClose 2) None;
            Log INFO "Tasks cancelled";
            Log INFO "Connected to Twitch channel #bobstream";
            Log INFO "Connected to Twitch IRC for channel #bobstream";
            Call (IrcSend 2 ("JOIN #bobstream" +:+ Py.CRLF)) None;
            Call (IrcSend 2 ("NICK justinfan12345" +:+ Py.CRLF)) None;
            Call (IrcSend 2 ("PASS oauth:anonymous" +:+ Py.CRLF)) None;
            Call (IrcCreate IRC_URL) None;
            Log INFO ("Connected to proxy at " +:+ PROXY_URL);
            Call (RelayConnect PROXY_URL) None] ∅).
Proof.
  pose proof (X19_run_starts_loops_connected calm cancelled bob nothing_yet
                eq_refl eq_refl eq_refl eq_refl eq_refl) as [H _].
  etransitivity; [exact H | reflexivity].
Defined.

(** * Frames written to the relay *)

Module FrameFacts.
Import Py Reader.
#[local] Arguments String.append !s1 s2 : simpl nomatch.

Lemma read_escape_char (c : ascii) (tail : string) :
  read_string (escape_char c +:+ tail)
  = match read_string tail with
    | Some (r, rest) => Some (String c r, rest)
    | None => None
    end.
Proof. destruct c as [[] [] [] [] [] [] [] []]; reflexivity. Qed.

Lemma read_escape (s rest : string) :
  read_string (escape s +:+ String dquote rest) = Some (s, rest).
Proof.
  induction s as [|c s IH]; [reflexivity |].
  cbn [escape]. rewrite sapp_assoc, read_escape_char. by rewrite IH.
Qed.

Lemma read_dumps_str (s rest : string) :
  read_quoted (dumps_str s +:+ rest) = Some (s, rest).
Proof.
  unfold dumps_str. cbn [String.append read_quoted].
  rewrite sapp_assoc. cbn [String.append]. apply read_escape.
Qed.

Lemma skip_ws_dumps_str (s rest : string) :
  skip_ws (dumps_str s +:+ rest) = dumps_str s +:+ rest.
Proof. reflexivity. Qed.

Lemma dumps_items_cons k v kv (rest : list (string * string)) :
  dumps_items ((k, v) :: kv :: rest)
  = dumps_str k +:+ ": " +:+ dumps_str v +:+ ", " +:+ dumps_items (kv :: rest).
Proof. reflexivity. Qed.

Lemma dumps_items_head kv (rest : list (string * string)) (tail : string) :
  exists s t, dumps_items (kv :: rest) +:+ tail = dumps_str s +:+ t.
Proof.
  destruct kv as [k v]. destruct rest as [|kv' rest].
  - exists k. eexists. cbn [dumps_items]. by rewrite sapp_assoc.
  - exists k. eexists. rewrite dumps_items_cons. by rewrite sapp_assoc.
Qed.

(** Reading one member [k: v], up to what follows it. *)
Lemma read_member (n : nat) (k v tail : string) :
  read_members (S n) (dumps_str k +:+ ": " +:+ dumps_str v +:+ tail)
  = match skip_ws tail with
    | String c2 s4 =>
        if Ascii.eqb c2 "," then
          match read_members n (skip_ws s4) with
          | Some rest => Some ((k, v) :: rest)
          | None => None
          end
        else if Ascii.eqb c2 "}" then
          if is_empty (skip_ws s4) then Some [(k, v)] else None
        else None
    | EmptyString => None
    end.
Proof.
  cbn [read_members]. rewrite read_dumps_str.
  change (skip_ws (": " +:+ dumps_str v +:+ tail))
    with (String ":" (String " " (dumps_str v +:+ tail))).
  cbv beta match.
  change (Ascii.eqb ":" ":") with true. cbv beta match.
  change (skip_ws (String " " (dumps_str v +:+ tail)))
    with (dumps_str v +:+ tail).
  by rewrite read_dumps_str.
Qed.

Lemma read_members_dumps (kvs : list (string * string)) : forall n,
  kvs <> [] -> length kvs <= n ->
  read_members n (dumps_items kvs +:+ "}") = Some kvs.
Proof.
  induction kvs as [|[k v] kvs IH]; intros n Hne Hn; [done |].
  destruct n as [|n]; [simpl in Hn; lia |].
  destruct kvs as [|kv kvs].
  - cbn [dumps_items]. rewrite !sapp_assoc, read_member. reflexivity.
  - rewrite dumps_items_cons, !sapp_assoc, read_member.
    change (skip_ws (", " +:+ dumps_items (kv :: kvs) +:+ "}"))
      with (String "," (String " " (dumps_items (kv :: kvs) +:+ "}"))).
    cbv beta match. change (Ascii.eqb "," ",") with true. cbv beta match.
    destruct (dumps_items_head kv kvs "}") as (s & t & Hs).
    rewrite Hs.
    change (skip_ws (String " " (dumps_str s +:+ t))) with (dumps_str s +:+ t).
    rewrite <- Hs.
    rewrite IH; [done | done | simpl in *; lia].
Qed.

Lemma length_dumps_items (kvs : list (string * string)) :
  length kvs <= String.length (dumps_items kvs).
Proof.
  induction kvs as [|[k v] [|kv kvs] IH]; [simpl; lia | |].
  - cbn [dumps_items]. rewrite length_sapp. unfold dumps_str. simpl. lia.
  - rewrite dumps_items_cons, !length_sapp. simpl in *. lia.
Qed.

(** Decoding what [json.dumps] wrote gives the members back. *)
Lemma loads_dumps (kvs : list (string * string)) :
  loads (dumps kvs) = Some kvs.
Proof.
  destruct kvs as [|kv kvs]; [reflexivity |].
  unfold dumps, loads.
  change (skip_ws ("{" +:+ dumps_items (kv :: kvs) +:+ "}"))
    with (String "{" (dumps_items (kv :: kvs) +:+ "}")).
  cbv beta match. change (Ascii.eqb "{" "{") with true. cbv beta match.
  destruct (dumps_items_head kv kvs "}") as (s & t & Hs).
  rewrite Hs, skip_ws_dumps_str.
  change (dumps_str s +:+ t)
    with (String dquote ((escape s +:+ String dquote EmptyString) +:+ t)).
  cbv beta match. change (Ascii.eqb dquote "}") with false. cbv beta match.
  change (String dquote ((escape s +:+ String dquote EmptyString) +:+ t))
    with (dumps_str s +:+ t).
  rewrite <- Hs. apply read_members_dumps; [done |].
  pose proof (length_dumps_items (kv :: kvs)).
  change ("{" +:+ dumps_items (kv :: kvs) +:+ "}")
    with (String "{" (dumps_items (kv :: kvs) +:+ "}")).
  cbn [String.length]. rewrite length_sapp. lia.
Qed.

Lemma printable_app (a b : string) :
  printable (a +:+ b) = printable a && printable b.
Proof.
  induction a as [|c a IH]; [done |].
  cbn [String.append printable]. rewrite IH. by rewrite andb_assoc.
Qed.

Lemma printable_escape_char (c : ascii) : printable (escape_char c) = true.
Proof. destruct c as [[] [] [] [] [] [] [] []]; reflexivity. Qed.

Lemma printable_escape (s : string) : printable (escape s) = true.
Proof.
  induction s as [|c s IH]; [done |].
  cbn [escape]. by rewrite printable_app, printable_escape_char, IH.
Qed.

Lemma printable_dumps_str (s : string) : printable (dumps_str s) = true.
Proof.
  unfold dumps_str. cbn [String.append printable].
  by rewrite printable_app, printable_escape.
Qed.

End FrameFacts.

(** X20. Round trip of the frame [_send_to_proxy] writes: for every chat
    text, whatever bytes it holds (quotes, backslashes, line breaks,
    control and non-ASCII bytes), the frame consists of printable ASCII
    characters only, so it is one line, and decoding it gives back
    exactly the two members [type] = [text-input] and [text] = the chat
    text. *)
Theorem X20_frame_round_trip (text : string) :
  Reader.loads (text_input_frame text)
  = Some [("type", "text-input"); ("text", text)] /\
  printable (text_input_frame text) = true.
Proof.
  split; [apply FrameFacts.loads_dumps |].
  unfold text_input_frame, dumps. cbn [dumps_items].
  rewrite !FrameFacts.printable_app, !FrameFacts.printable_dumps_str.
  reflexivity.
Qed.

(** X21. After a shutdown the bridge is inert: on the state
    [disconnect] leaves, [start_receiving] only logs that the relay is
    not connected, [_monitor_twitch_chat] only logs its start and its
    stop, and a chat message handed to [_send_to_proxy] is refused with
    one error line; nothing is read or written and the object stays as
    the shutdown left it. *)
Theorem X21_loops_idle_after_shutdown E rounds text self w :
  exists s1 w1,
    disconnect E self w = (Ret tt, s1, w1) /\
    start_receiving E rounds s1 w1
    = (Ret tt, s1,
       World (Log ERROR "Cannot start receiving: Not connected to proxy"
                :: trace w1) (heap w1)) /\
    _monitor_twitch_chat E (S rounds) s1 w1
    = (Ret tt, s1,
       World (Log INFO "Stopped monitoring Twitch chat"
                :: Log INFO ("Started monitoring Twitch chat for #"
                               +:+ _channel self)
                :: trace w1) (heap w1)) /\
    _send_to_proxy E text s1 w1
    = (Ret false, s1,
       World (Log ERROR "Cannot send message: Not connected to proxy"
                :: trace w1) (heap w1)).
Proof.
  destruct (disconnect_spec E self w)
    as (s1 & w1 & Hd & evs & _ & _ & Hr & Hc & _ & _ & _ & _ & Hch).
  exists s1, w1. split_and!; [done | | |].
  - apply receive_refused_when_not_connected.
    by apply is_connected_flag_off.
  - rewrite <- Hch. apply monitor_idle_when_stopped. by left.
  - unfold _send_to_proxy. unfold_m. simpl.
    by rewrite (is_connected_flag_off E (trace w1) s1 Hc).
Qed.

(** X22. A relay connection attempt never raises and answers true
    exactly when the connection call succeeded.  On success the new
    handle is stored and the connected flag set; on failure the object is
    left exactly as it was, a handle and a connected flag from an earlier
    connection included, and one error line is logged. *)
Theorem X22_connect_outcomes E url self w :
  exists b self' w',
    connect E url self w = (Ret b, self', w') /\
    (b = true <-> fails E (trace w) (RelayConnect url) = None) /\
    (b = true ->
     self' = set_connected true (set_websocket (Some (length (trace w))) self) /\
     trace w' = Log INFO ("Connected to proxy at " +:+ url)
                  :: Call (RelayConnect url) None :: trace w) /\
    (b = false ->
     self' = self /\
     exists f,
       trace w' = Log ERROR ("Failed to connect to proxy: " +:+ failure_msg f)
                    :: Call (RelayConnect url) (Some f) :: trace w) /\
    heap w' = heap w.
Proof.
  unfold connect. unfold_m. simpl.
  destruct (fails E (trace w) (RelayConnect url)) as [f|]; simpl;
    do 3 eexists; (split; [reflexivity |]); split_and!; try done.
  intros _. split; [done |]. by exists f.
Qed.

(** [run] returns normally from every state. *)
Lemma run_returns E gather self w :
  exists self' w', run E gather self w = (Ret tt, self', w').
Proof.
  unfold run, try_finally.
  destruct (run_body_returns E gather self w) as (s1 & w1 & Hb).
  rewrite Hb.
  destruct (disconnect_spec E s1 w1) as (s2 & w2 & Hd & _).
  rewrite Hd. by exists s2, w2.
Qed.

(** X23. The start-up script never lets an exception out, whatever the
    configuration loader, the environment and the concurrent phase do.
    When the configuration cannot be loaded, names no channel, or the
    client library is missing, it only writes log lines: no platform
    runs and no connection is attempted. *)
Theorem X23_main_contains_failures E gather loaded w :
  exists w',
    main E gather loaded w = (Ret tt, w') /\
    (match loaded with
     | inl _ => True
     | inr cfg =>
         Config.channel cfg = EmptyString \/
         WEBSOCKET_CLIENT_AVAILABLE E = false
     end ->
     exists evs,
       w' = World (evs ++ Log INFO "Starting Twitch Live platform client"
                     :: trace w) (heap w) /\
       Forall (fun ev => is_call ev = false) evs /\
       1 <= length evs <= 3).
Proof.
  unfold main, logw.
  destruct loaded as [e|cfg]; simpl.
  { eexists. split; [reflexivity |]. intros _.
    eexists [_; _]. split; [reflexivity |]. split; [by repeat constructor |].
    simpl. lia. }
  destruct (Py.truthy (Config.channel cfg)) eqn:Hch; simpl.
  2:{ eexists. split; [reflexivity |]. intros _.
      eexists [_]. split; [reflexivity |]. split; [by repeat constructor |].
      simpl. lia. }
  unfold __init__.
  destruct (WEBSOCKET_CLIENT_AVAILABLE E) eqn:Hlib; simpl.
  2:{ eexists. split; [reflexivity |]. intros _.
      eexists [_; _; _]. split; [reflexivity |].
      split; [by repeat constructor |]. simpl. lia. }
  match goal with
  | |- context [run E gather ?p ?w0] =>
      destruct (run_returns E gather p w0) as (s' & w' & Hrun)
  end.
  rewrite Hrun. exists w'. split; [done |].
  intros [Hc | Hc]; [| done].
  rewrite Hc in Hch. done.
Qed.

Lemma X23_main_contains_failures_witness :
  exists w',
    main no_library (mret tt) (inr bob_config) nothing_yet = (Ret tt, w') /\
    exists evs,
      w' = World (evs ++ [Log INFO "Starting Twitch Live platform client"]) ∅ /\
      Forall (fun ev => is_call ev = false) evs /\
      1 <= length evs <= 3.
Proof.
  destruct (X23_main_contains_failures no_library (mret tt) (inr bob_config)
              nothing_yet) as (w' & Hmain & Hlogs).
  exists w'. split; [exact Hmain |]. apply Hlogs. by right.
Defined.

(** X24. With a usable configuration the script builds the platform
    for the normalised channel and runs it: the channel is logged as
    configured, [run] is entered with both flags off, no socket and no
    handler, and the script ends with the shutdown of [run]. *)
Theorem X24_main_runs_platform E gather cfg w :
  Py.truthy (Config.channel cfg) = true ->
  WEBSOCKET_CLIENT_AVAILABLE E = true ->
  let p := Platform (Py.lstrip_char "#" (Py.lower (Config.channel cfg)))
             (Config.oauth_token cfg)
             (if Py.truthy (Config.username cfg)
              then Py.lower (Config.username cfg) else "justinfan12345")
             None None false false [] in
  let w0 := World (Log INFO ("Connecting to Twitch channel: #"
                               +:+ Config.channel cfg)
                     :: Log INFO "Starting Twitch Live platform client"
                     :: trace w) (heap w) in
  exists self' w',
    run E gather p w0 = (Ret tt, self', w') /\
    main E gather (inr cfg) w = (Ret tt, w') /\
    Disconnected E self' w' /\
    exists evs,
      trace w' = Log INFO "Disconnected from Twitch and proxy server" :: evs.
Proof.
  intros Hch Hlib p w0.
  unfold main, logw, __init__. simpl. rewrite Hch, Hlib. simpl.
  fold p. fold w0.
  unfold run, try_finally.
  destruct (run_body_returns E gather p w0) as (s1 & w1 & Hb).
  rewrite Hb.
  destruct (disconnect_spec E s1 w1)
    as (s2 & w2 & Hd & evs & Ht & _ & Hr & Hc & _).
  rewrite Hd. exists s2, w2. split_and!; try done.
  - unfold Disconnected. split_and!; try done. by apply is_connected_flag_off.
  - revert Hd. unfold disconnect. unfold_m. simpl.
    destruct (_irc_socket s1), (_websocket s1); simpl;
      repeat (match goal with
              | |- context [fails E ?t ?a] => destruct (fails E t a); simpl
              end);
      intros [= <- <-]; by eexists.
Qed.

Lemma X24_main_runs_platform_witness :
  exists self' w',
    run calm cancelled bob
      (World [Log INFO "Connecting to Twitch channel: ##BobStream";
              Log INFO "Starting Twitch Live platform client"] ∅)
    = (Ret tt, self', w') /\
    main calm cancelled (inr bob_config) nothing_yet = (Ret tt, w') /\
    Disconnected calm self' w' /\
    exists evs,
      trace w' = Log INFO "Disconnected from Twitch and proxy server" :: evs.
Proof.
  apply (X24_main_runs_platform calm cancelled bob_config nothing_yet);
    reflexivity.
Defined.
